(** * Blog content pipeline: content resolution ([src/src/utils/markdown.ts])
      and the HTML uploader ([src/unnamed/part_000], [HtmlUploader]).

    Shallow embedding.  The libraries the code calls as black boxes
    ([marked.parse], [DOMPurify.sanitize], [front-matter], [new Date(..).getTime()],
    [TurndownService.turndown], [slugify]) are section variables; the code
    around them is translated line by line.  Strings are ASCII strings. *)

From Stdlib Require Import String Ascii List ZArith Lia Bool Permutation Sorted Relations.
Import ListNotations.
Open Scope string_scope.
Open Scope Z_scope.

(** ** JavaScript string and exception primitives *)

Module Js.

(** [\s] restricted to ASCII: space, \t, \n, \v, \f, \r. *)
Definition is_ws (c : ascii) : bool :=
  let n := nat_of_ascii c in
  (Nat.eqb n 32 || Nat.eqb n 9 || Nat.eqb n 10 || Nat.eqb n 11 || Nat.eqb n 12
   || Nat.eqb n 13)%bool.

(** Line terminators (what [.] does not match and where [^]/[$] anchor under
    the [m] flag), restricted to ASCII: \n and \r. *)
Definition is_line_term (c : ascii) : bool :=
  let n := nat_of_ascii c in (Nat.eqb n 10 || Nat.eqb n 13)%bool.

Definition is_nl (c : ascii) : bool := Nat.eqb (nat_of_ascii c) 10.
Definition is_hash (c : ascii) : bool := Ascii.eqb c "#"%char.

Fixpoint take_while (p : ascii -> bool) (s : string) : string :=
  match s with
  | EmptyString => EmptyString
  | String c t => if p c then String c (take_while p t) else EmptyString
  end.

Fixpoint ltrim (s : string) : string :=
  match s with
  | EmptyString => EmptyString
  | String c t => if is_ws c then ltrim t else s
  end.

Fixpoint rtrim (s : string) : string :=
  match s with
  | EmptyString => EmptyString
  | String c t =>
      match rtrim t with
      | EmptyString => if is_ws c then EmptyString else String c EmptyString
      | t' => String c t'
      end
  end.

(** [String.prototype.trim] *)
Definition trim (s : string) : string := rtrim (ltrim s).

(** [String.prototype.toLowerCase] on ASCII. *)
Definition lower_char (c : ascii) : ascii :=
  let n := nat_of_ascii c in
  if (Nat.leb 65 n && Nat.leb n 90)%bool then ascii_of_nat (n + 32) else c.

Fixpoint toLowerCase (s : string) : string :=
  match s with
  | EmptyString => EmptyString
  | String c t => String (lower_char c) (toLowerCase t)
  end.

(** [s.slice(0, n)] *)
Definition slice0 (n : nat) (s : string) : string := substring 0 n s.

(** [s || d] on strings: the empty string is falsy. *)
Definition str_or (s d : string) : string :=
  match s with EmptyString => d | _ => s end.

(** Outcome of a JavaScript computation: a value, or a thrown error
    (for an [async] function, a rejected promise). *)
Inductive Exc (A : Type) : Type :=
| Ok : A -> Exc A
| Throw : string -> Exc A.
Arguments Ok {A} _.
Arguments Throw {A} _.

Definition bind {A B} (m : Exc A) (k : A -> Exc B) : Exc B :=
  match m with Ok a => k a | Throw e => Throw e end.

(** [try { m } catch (e) { h(e) }] *)
Definition try_catch {A} (m : Exc A) (h : string -> Exc A) : Exc A :=
  match m with Ok a => Ok a | Throw e => h e end.

End Js.

Import Js.
Notation "x <- m ;; k" := (Js.bind m (fun x => k))
  (at level 61, m at next level, right associativity).

(** [Array.prototype.sort] with a comparator returning a number.  V8 sorts
    short arrays by binary insertion sort and longer ones by TimSort; both
    are stable and place an element after every element it does not compare
    below ([order < 0] moves left), which is what this insertion does.  A NaN
    comparator result counts as [+0]; comparators here return [0] there. *)
Section JsSort.
Context {A : Type} (cmp : A -> A -> Z).

Fixpoint sort_insert (x : A) (l : list A) : list A :=
  match l with
  | [] => [x]
  | y :: ys => if cmp x y <? 0 then x :: y :: ys else y :: sort_insert x ys
  end.

Definition js_sort (l : list A) : list A :=
  fold_left (fun acc x => sort_insert x acc) l [].

End JsSort.

(** Comparator [(a, b) => key(b) - key(a)], with [None] standing for NaN. *)
Definition cmp_desc {A} (key : A -> option Z) (a b : A) : Z :=
  match key b, key a with
  | Some kb, Some ka => kb - ka
  | _, _ => 0
  end.

(** ** Data model *)

(** [interface BlogPost] *)
Record BlogPost := mkBlogPost {
  title : string;
  date : string;
  slug : string;
  excerpt : string;
  featuredImage : option string;
  content : string
}.

(** [interface BlogFrontMatter] *)
Record BlogFrontMatter := mkFrontMatter {
  fm_title : string;
  fm_date : string;
  fm_slug : string;
  fm_excerpt : string;
  fm_featuredImage : option string
}.

(** A row of the [blog_posts] table of the remote store (wire names). *)
Record Row := mkRow {
  row_slug : string;
  row_title : string;
  row_date : string;
  row_excerpt : string;
  row_featured_image : option string;
  row_content : string;
  row_created_at : Z
}.

(** Availability of the remote client: it answers, it answers with an
    [error] object, or its promise rejects. *)
Inductive RemoteMode := Remote_up | Remote_error (msg : string) | Remote_throws (msg : string).

Record Store := mkStore { table : list Row; remote : RemoteMode }.

(** The [{ data, error }] object a query resolves to. *)
Record Resp (A : Type) := mkResp { data : option A; error : option string }.
Arguments mkResp {A} _ _.
Arguments data {A} _.
Arguments error {A} _.

(** [.select('*').order('created_at', { ascending: false })] *)
Definition select_all_ordered (st : Store) : Exc (Resp (list Row)) :=
  match remote st with
  | Remote_up =>
      Ok (mkResp (Some (js_sort (cmp_desc (fun r => Some (row_created_at r))) (table st))) None)
  | Remote_error m => Ok (mkResp None (Some m))
  | Remote_throws m => Throw m
  end.

(** [.select('*').eq('slug', slug).single()]: [data] is the row when exactly
    one row matches, otherwise [null] with an error. *)
Definition select_single (st : Store) (s : string) : Exc (Resp Row) :=
  match remote st with
  | Remote_up =>
      match filter (fun r => String.eqb (row_slug r) s) (table st) with
      | [r] => Ok (mkResp (Some r) None)
      | _ => Ok (mkResp None (Some "JSON object requested, multiple (or no) rows returned"))
      end
  | Remote_error m => Ok (mkResp None (Some m))
  | Remote_throws m => Throw m
  end.

(** The local documents [import.meta.glob('/content/blog/*.md')]: a path and
    the raw text its loader resolves to ([None]: the loader rejects). *)
Definition LocalDocs := list (string * option string).

(** ** Content resolution ([getAllPosts], [getPostBySlug]) *)

Section Resolution.

(** [marked.parse] (synchronous) *)
Variable marked_parse : string -> string.
(** [DOMPurify.sanitize] *)
Variable sanitize : string -> string.
(** [frontMatter<BlogFrontMatter>(text)]: attributes and body; [None] when it throws. *)
Variable frontMatter : string -> option (BlogFrontMatter * string).
(** [new Date(s).getTime()]; [None] stands for NaN. *)
Variable date_time : string -> option Z.

(** The mapping of a remote row to a [BlogPost]. *)
Definition row_to_post (r : Row) : BlogPost :=
  {| title := row_title r; date := row_date r; slug := row_slug r;
     excerpt := row_excerpt r; featuredImage := row_featured_image r;
     content := row_content r |}.

(** [{ ...attributes, content: DOMPurify.sanitize(marked.parse(body)) }] *)
Definition local_post (fm : BlogFrontMatter) (body : string) : BlogPost :=
  {| title := fm_title fm; date := fm_date fm; slug := fm_slug fm;
     excerpt := fm_excerpt fm; featuredImage := fm_featuredImage fm;
     content := sanitize (marked_parse body) |}.

(** [await markdownFiles[path]()] followed by [frontMatter(content)]. *)
Definition load_and_parse (raw : option string) : Exc (BlogFrontMatter * string) :=
  match raw with
  | None => Throw "failed to load module"
  | Some text =>
      match frontMatter text with
      | Some p => Ok p
      | None => Throw "front-matter: invalid header"
      end
  end.

(** [for (const path in markdownFiles) { try { ...; posts.push(..) } catch { log } }] *)
Fixpoint collect_local (docs : LocalDocs) (posts : list BlogPost) : Exc (list BlogPost) :=
  match docs with
  | [] => Ok posts
  | (path, raw) :: rest =>
      posts' <- try_catch
                  (p <- load_and_parse raw ;; Ok (posts ++ [local_post (fst p) (snd p)])%list)
                  (fun _ => Ok posts) ;;
      collect_local rest posts'
  end.

(** [(a, b) => new Date(b.date).getTime() - new Date(a.date).getTime()] *)
Definition by_date : BlogPost -> BlogPost -> Z := cmp_desc (fun p => date_time (date p)).

Definition getAllPosts (st : Store) (docs : LocalDocs) : Exc (list BlogPost) :=
  try_catch
    (resp <- select_all_ordered st ;;
     (* if (supabaseError) console.error(..): logging only *)
     match data resp with
     | Some ((_ :: _) as supabasePosts) => Ok (map row_to_post supabasePosts)
     | _ =>
         posts <- collect_local docs [] ;;
         Ok (js_sort by_date posts)
     end)
    (fun _ => Ok []).

(** The local loop of [getPostBySlug], with its early [return]. *)
Fixpoint find_local (s : string) (docs : LocalDocs) : Exc (option BlogPost) :=
  match docs with
  | [] => Ok None
  | (path, raw) :: rest =>
      found <- try_catch
                 (p <- load_and_parse raw ;;
                  if String.eqb (fm_slug (fst p)) s
                  then Ok (Some (local_post (fst p) (snd p)))
                  else Ok None)
                 (fun _ => Ok None) ;;
      match found with
      | Some post => Ok (Some post)
      | None => find_local s rest
      end
  end.

Definition getPostBySlug (st : Store) (docs : LocalDocs) (s : string) : Exc (option BlogPost) :=
  try_catch
    (resp <- select_single st s ;;
     match data resp with
     | Some supabaseData => Ok (Some (row_to_post supabaseData))
     | None => find_local s docs
     end)
    (fun _ => Ok None).

End Resolution.

(** ** Dates: [new Date().toISOString().split('T')[0]] *)

Module Clock.

(** Days since 1970-01-01 to a proleptic Gregorian (year, month, day). *)
Definition civil_from_days (z : Z) : Z * Z * Z :=
  let z := z + 719468 in
  let era := z / 146097 in
  let doe := z - era * 146097 in
  let yoe := (doe - doe / 1460 + doe / 36524 - doe / 146096) / 365 in
  let doy := doe - (365 * yoe + yoe / 4 - yoe / 100) in
  let mp := (5 * doy + 2) / 153 in
  let d := doy - (153 * mp + 2) / 5 + 1 in
  let m := if mp <? 10 then mp + 3 else mp - 9 in
  let y := yoe + era * 400 + (if m <=? 2 then 1 else 0) in
  (y, m, d).

Definition digit (n : Z) : ascii := ascii_of_nat (48 + Z.to_nat n).

(** The last [w] decimal digits of [n], zero-padded. *)
Fixpoint pad (w : nat) (n : Z) : string :=
  match w with
  | O => EmptyString
  | S w' => pad w' (n / 10) ++ String (digit (n mod 10)) EmptyString
  end.

(** The [YYYY-MM-DD] part of the ISO string of the instant [ms] (epoch ms). *)
Definition iso_day (ms : Z) : string :=
  let '(y, m, d) := civil_from_days (ms / 86400000) in
  pad 4 y ++ "-" ++ pad 2 m ++ "-" ++ pad 2 d.

End Clock.

(** ** Metadata extraction regexes of [handleFileSelect] *)

Module Regex.

Fixpoint drop (k : nat) (s : string) : string :=
  match k, s with
  | O, _ => s
  | S k', String _ t => drop k' t
  | S _, EmptyString => EmptyString
  end.

(** After the [#] of [/^#\s*(.+)$/m]: [\s*] first takes [k] characters of
    the whitespace run (longest first, then backtracking); [(.+)] then takes
    the maximal run of non-terminators, after which [$] always holds.  The
    first [k] (from the longest) giving a non-empty run wins. *)
Fixpoint title_backtrack (k : nat) (r : string) : option string :=
  match take_while (fun c => negb (is_line_term c)) (drop k r) with
  | EmptyString => match k with O => None | S k' => title_backtrack k' r end
  | g => Some g
  end.

(** Leftmost match of [/^#\s*(.+)$/m], returning capture group 1.
    [at_start]: the position is at input start or after a line terminator. *)
Fixpoint title_scan (at_start : bool) (s : string) : option string :=
  match s with
  | EmptyString => None
  | String c t =>
      match (if (at_start && is_hash c)%bool
             then title_backtrack (String.length (take_while is_ws t)) t
             else None) with
      | Some g => Some g
      | None => title_scan (is_line_term c) t
      end
  end.

Definition title_match (md : string) : option string := title_scan true md.

Definition not_hash_nl (c : ascii) : bool := negb (is_hash c || is_nl c).

(** Leftmost match of [/^[^#\n]+/m] (greedy, so the maximal run). *)
Fixpoint excerpt_scan (at_start : bool) (s : string) : option string :=
  match s with
  | EmptyString => None
  | String c t =>
      if (at_start && not_hash_nl c)%bool then Some (take_while not_hash_nl s)
      else excerpt_scan (is_line_term c) t
  end.

Definition excerpt_match (md : string) : option string := excerpt_scan true md.

End Regex.

(** ** The uploader component ([HtmlUploader]) *)

(** The [metadata] state. *)
Record Metadata := mkMetadata {
  m_title : string;
  m_slug : string;
  m_date : string;
  m_featuredImage : string;
  m_excerpt : string
}.

Record File := mkFile { f_name : string; f_type : string; f_text : string }.

(** The insert [payload] of [handleDeploy]; [created_at] as epoch ms. *)
Record Payload := mkPayload {
  p_slug : string;
  p_title : string;
  p_date : string;
  p_excerpt : string;
  p_featured_image : option string;
  p_content : string;
  p_created_at : Z
}.

(** The component's [useState] cells. *)
Record Uploader := mkUploader {
  u_file : option File;
  u_markdown : string;
  u_metadata : Metadata;
  u_error : option string;
  u_isDeploying : bool
}.

(** The component together with its environment: the client clock, the
    [FileReader] reads whose [onload] is pending, the inserts [handleDeploy]
    is awaiting (with the slug it navigates to), the remote table, and the
    route. *)
Record World := mkWorld {
  w_ui : Uploader;
  w_now : Z;
  w_reads : list File;
  w_inflight : list (Payload * string);
  w_table : list Row;
  w_route : option string
}.

Definition ends_with (suffix s : string) : bool :=
  (Nat.leb (String.length suffix) (String.length s) &&
   String.eqb (substring (String.length s - String.length suffix) (String.length suffix) s) suffix)%bool.

Definition set_ui (w : World) (u : Uploader) : World :=
  {| w_ui := u; w_now := w_now w; w_reads := w_reads w; w_inflight := w_inflight w;
     w_table := w_table w; w_route := w_route w |}.

Definition set_error (u : Uploader) (e : option string) : Uploader :=
  {| u_file := u_file u; u_markdown := u_markdown u; u_metadata := u_metadata u;
     u_error := e; u_isDeploying := u_isDeploying u |}.

Definition set_deploying (u : Uploader) (b : bool) : Uploader :=
  {| u_file := u_file u; u_markdown := u_markdown u; u_metadata := u_metadata u;
     u_error := u_error u; u_isDeploying := b |}.

(** The state right after mounting at instant [now]: [useState] initialisers. *)
Definition mount (now : Z) (tbl : list Row) : World :=
  {| w_ui := {| u_file := None; u_markdown := "";
                u_metadata := {| m_title := ""; m_slug := ""; m_date := Clock.iso_day now;
                                 m_featuredImage := ""; m_excerpt := "" |};
                u_error := None; u_isDeploying := false |};
     w_now := now; w_reads := []; w_inflight := []; w_table := tbl; w_route := None |}.

(** The stored row for an accepted payload. *)
Definition payload_row (p : Payload) : Row :=
  {| row_slug := p_slug p; row_title := p_title p; row_date := p_date p;
     row_excerpt := p_excerpt p; row_featured_image := p_featured_image p;
     row_content := p_content p; row_created_at := p_created_at p |}.

Section UploaderLogic.

(** [turndownService.turndown] with the service configured as in
    [handleFileSelect] (atx headings, [---], [-] bullets, fenced code, the
    [images] rule). *)
Variable turndown : string -> string.
(** [slugify] with default options. *)
Variable slugify : string -> string.

(** [handleFileSelect], synchronous part: the new component state and the
    file whose [FileReader] read is started, if any. *)
Definition handleFileSelect (u : Uploader) (f : File) : Uploader * option File :=
  if (negb (String.eqb (f_type f) "text/html")
      && negb (ends_with ".html" (toLowerCase (f_name f))))%bool
  then (set_error u (Some "Please select a valid HTML file"), None)
  else ({| u_file := Some f; u_markdown := u_markdown u; u_metadata := u_metadata u;
           u_error := None; u_isDeploying := u_isDeploying u |}, Some f).

(** [reader.onload]: conversion and metadata extraction, with
    [setMetadata(prev => ({ ...prev, title, slug, excerpt }))]. *)
Definition reader_onload (u : Uploader) (htmlContent : string) : Uploader :=
  let markdownContent := turndown htmlContent in
  let titleMatch := Regex.title_match markdownContent in
  let excerptMatch := Regex.excerpt_match markdownContent in
  let prev := u_metadata u in
  {| u_file := u_file u;
     u_markdown := markdownContent;
     u_metadata :=
       {| m_title := match titleMatch with Some g => trim g | None => "" end;
          m_slug := match titleMatch with Some g => slugify (toLowerCase g) | None => "" end;
          m_date := m_date prev;
          m_featuredImage := m_featuredImage prev;
          m_excerpt := match excerptMatch with Some x => slice0 200 (trim x) | None => "" end |};
     u_error := u_error u;
     u_isDeploying := u_isDeploying u |}.

(** The title input's [onChange]. *)
Definition edit_title (u : Uploader) (v : string) : Uploader :=
  let prev := u_metadata u in
  {| u_file := u_file u; u_markdown := u_markdown u;
     u_metadata := {| m_title := v; m_slug := slugify (toLowerCase v); m_date := m_date prev;
                      m_featuredImage := m_featuredImage prev; m_excerpt := m_excerpt prev |};
     u_error := u_error u; u_isDeploying := u_isDeploying u |}.

(** The markdown textarea's [onChange]. *)
Definition edit_markdown (u : Uploader) (v : string) : Uploader :=
  {| u_file := u_file u; u_markdown := v; u_metadata := u_metadata u;
     u_error := u_error u; u_isDeploying := u_isDeploying u |}.

(** [handleDeploy] up to its [await]: the state after the event and the
    insert it issues (with the [slug] it will navigate to), if any.  On the
    validation error, [setIsDeploying(true)] is undone by [finally]. *)
Definition handleDeploy_start (u : Uploader) (now : Z) : Uploader * option (Payload * string) :=
  let u1 := set_error (set_deploying u true) None in
  let metadata := u_metadata u in
  let markdown := u_markdown u in
  if (String.eqb (m_title metadata) "" || String.eqb markdown "")%bool
  then (set_deploying (set_error u1 (Some "Title and content are required")) false, None)
  else
    let s := slugify (toLowerCase (m_title metadata)) in
    let payload :=
      {| p_slug := s;
         p_title := m_title metadata;
         p_date := m_date metadata;
         p_excerpt := str_or (m_excerpt metadata) (slice0 200 markdown);
         p_featured_image :=
           match m_featuredImage metadata with EmptyString => None | fi => Some fi end;
         p_content := markdown;
         p_created_at := now |} in
    (u1, Some (payload, s)).

(** [handleDeploy] after the insert settles: [None] on success, the error's
    message otherwise.  Returns the state and the route navigated to. *)
Definition handleDeploy_finish (u : Uploader) (s : string) (res : option string)
  : Uploader * option string :=
  match res with
  | None => (set_deploying u false, Some ("/blog/" ++ s))
  | Some msg => (set_deploying (set_error u (Some (str_or msg "Failed to deploy blog post"))) false, None)
  end.

(** [disabled={!metadata.title || !markdown || isDeploying}] *)
Definition deploy_enabled (u : Uploader) : bool :=
  negb (String.eqb (m_title (u_metadata u)) "" || String.eqb (u_markdown u) ""
        || u_isDeploying u).

Definition opt_list {A} (o : option A) : list A :=
  match o with Some a => [a] | None => [] end.

Definition select_file (w : World) (f : File) : World :=
  let '(u', r) := handleFileSelect (w_ui w) f in
  {| w_ui := u'; w_now := w_now w; w_reads := (w_reads w ++ opt_list r)%list;
     w_inflight := w_inflight w; w_table := w_table w; w_route := w_route w |}.

Definition click_deploy (w : World) : World :=
  let '(u', ins) := handleDeploy_start (w_ui w) (w_now w) in
  {| w_ui := u'; w_now := w_now w; w_reads := w_reads w;
     w_inflight := (w_inflight w ++ opt_list ins)%list;
     w_table := w_table w; w_route := w_route w |}.

(** The store accepts an insert when its slug is not taken (unique key). *)
Definition slug_taken (tbl : list Row) (s : string) : bool :=
  existsb (fun r => String.eqb (row_slug r) s) tbl.

(** Events.  Each event sees the state left by the previous one (React
    flushes the updates of a discrete event before the next one). *)
Inductive step : World -> World -> Prop :=
| step_tick : forall w t, w_now w <= t ->
    step w {| w_ui := w_ui w; w_now := t; w_reads := w_reads w; w_inflight := w_inflight w;
              w_table := w_table w; w_route := w_route w |}
| step_select : forall w f, step w (select_file w f)
| step_load : forall w pre f post, w_reads w = (pre ++ f :: post)%list ->
    step w {| w_ui := reader_onload (w_ui w) (f_text f); w_now := w_now w;
              w_reads := (pre ++ post)%list; w_inflight := w_inflight w;
              w_table := w_table w; w_route := w_route w |}
| step_edit_title : forall w v, u_markdown (w_ui w) <> "" -> step w (set_ui w (edit_title (w_ui w) v))
| step_edit_markdown : forall w v, u_markdown (w_ui w) <> "" ->
    step w (set_ui w (edit_markdown (w_ui w) v))
| step_click : forall w, u_markdown (w_ui w) <> "" -> deploy_enabled (w_ui w) = true ->
    step w (click_deploy w)
| step_insert_ok : forall w p s rest, w_inflight w = (p, s) :: rest ->
    slug_taken (w_table w) (p_slug p) = false ->
    step w {| w_ui := fst (handleDeploy_finish (w_ui w) s None); w_now := w_now w;
              w_reads := w_reads w; w_inflight := rest;
              w_table := (w_table w ++ [payload_row p])%list;
              w_route := snd (handleDeploy_finish (w_ui w) s None) |}
| step_insert_fail : forall w p s rest msg, w_inflight w = (p, s) :: rest ->
    step w {| w_ui := fst (handleDeploy_finish (w_ui w) s (Some msg)); w_now := w_now w;
              w_reads := w_reads w; w_inflight := rest; w_table := w_table w;
              w_route := w_route w |}.

(** States reachable from a mount. *)
Inductive reachable : World -> Prop :=
| reach_mount : forall now tbl, reachable (mount now tbl)
| reach_step : forall w w', reachable w -> step w w' -> reachable w'.

End UploaderLogic.

(** ** Lines of a text *)

(** Lines joined by newlines, as the converted markdown text is laid out. *)
Fixpoint join_lines (ls : list string) : string :=
  match ls with
  | [] => EmptyString
  | x :: rest =>
      match rest with
      | [] => x
      | _ => x ++ String "010"%char (join_lines rest)
      end
  end.

Fixpoint str_forallb (p : ascii -> bool) (s : string) : bool :=
  match s with
  | EmptyString => true
  | String c t => (p c && str_forallb p t)%bool
  end.

(** A line: no line terminator inside. *)
Definition no_term (s : string) : bool := str_forallb (fun c => negb (is_line_term c)) s.

Definition starts_hash (s : string) : bool :=
  match s with String c _ => is_hash c | EmptyString => false end.

Definition has_non_ws (s : string) : bool := negb (str_forallb is_ws s).

(** ** Concrete instances used at concrete inputs *)

Module Fixtures.

Definition digit_val (c : ascii) : option Z :=
  let n := nat_of_ascii c in
  if (Nat.leb 48 n && Nat.leb n 57)%bool then Some (Z.of_nat n - 48) else None.

(** Days since 1970-01-01 of a proleptic Gregorian date. *)
Definition days_from_civil (y m d : Z) : Z :=
  let y := y - (if m <=? 2 then 1 else 0) in
  let era := y / 400 in
  let yoe := y - era * 400 in
  let doy := (153 * (if m >? 2 then m - 3 else m + 9) + 2) / 5 + d - 1 in
  let doe := yoe * 365 + yoe / 4 - yoe / 100 + doy in
  era * 146097 + doe - 719468.

(** [new Date(s).getTime()] for date-only ISO strings [YYYY-MM-DD] (UTC
    midnight); any other string is taken as NaN. *)
Definition iso_date_time (s : string) : option Z :=
  match list_ascii_of_string s with
  | [y1; y2; y3; y4; h1; m1; m2; h2; d1; d2] =>
      match digit_val y1, digit_val y2, digit_val y3, digit_val y4,
            digit_val m1, digit_val m2, digit_val d1, digit_val d2 with
      | Some a, Some b, Some c, Some e, Some f, Some g, Some i, Some j =>
          let y := a * 1000 + b * 100 + c * 10 + e in
          let m := f * 10 + g in
          let d := i * 10 + j in
          if (Ascii.eqb h1 "-"%char && Ascii.eqb h2 "-"%char
              && (1 <=? m) && (m <=? 12) && (1 <=? d) && (d <=? 31))%bool
          then Some (days_from_civil y m d * 86400000)
          else None
      | _, _, _, _, _, _, _, _ => None
      end
  | _ => None
  end.

(** Two remote rows: the one inserted later carries the earlier [date]. *)
Definition row_backdated : Row :=
  {| row_slug := "archive-2023-review"; row_title := "Archive: 2023 review";
     row_date := "2024-01-01"; row_excerpt := "Looking back"; row_featured_image := None;
     row_content := "<p>Looking back</p>"; row_created_at := 1718000000000 |}.

Definition row_recent : Row :=
  {| row_slug := "summer-picks"; row_title := "Summer picks";
     row_date := "2024-06-01"; row_excerpt := "Our picks"; row_featured_image := None;
     row_content := "<p>Our picks</p>"; row_created_at := 1717200000000 |}.

Definition store_backdated : Store := mkStore [row_recent; row_backdated] Remote_up.

(** A local document whose header has an empty [title]. *)
Definition doc_untitled_text : string :=
  "---" ++ String "010"%char ("title: ''" ++ String "010"%char ("date: 2024-01-01" ++
  String "010"%char ("slug: untitled" ++ String "010"%char ("excerpt: ''" ++
  String "010"%char ("---" ++ String "010"%char "Body text"))))).

(** What [front-matter] returns for [doc_untitled_text]. *)
Definition front_matter_untitled (raw : string) : option (BlogFrontMatter * string) :=
  if String.eqb raw doc_untitled_text
  then Some ({| fm_title := ""; fm_date := "2024-01-01"; fm_slug := "untitled";
                fm_excerpt := ""; fm_featuredImage := None |}, "Body text")
  else None.

Definition docs_untitled : LocalDocs := [("/content/blog/untitled.md", Some doc_untitled_text)].

Definition nl : string := String "010"%char EmptyString.

(** An uploaded page whose text shows an [img] tag with an event handler. *)
Definition html_xss : string := "<h1>Hi</h1><p>&lt;img src=x onerror=alert(1)&gt;</p>".

(** Its conversion: the entity-decoded text keeps the tag literally. *)
Definition md_xss : string := "# Hi" ++ nl ++ nl ++ "<img src=x onerror=alert(1)>".

(** A page with a subheading before the main heading and a [#] in a paragraph. *)
Definition html_headings : string := "<h2>Intro</h2><h1>Main</h1><p>C# rocks</p>".

Definition md_headings : string := join_lines ["## Intro"; ""; "# Main"; ""; "C# rocks"].

(** [turndown] on the pages above. *)
Definition turndown_fixture (html : string) : string :=
  if String.eqb html html_xss then md_xss
  else if String.eqb html html_headings then md_headings
  else EmptyString.

(** [slugify] on lower-case words without punctuation is the identity. *)
Definition slugify_fixture (s : string) : string := s.

Definition file_xss : File := mkFile "hi.html" "text/html" html_xss.
Definition file_headings : File := mkFile "headings.html" "text/html" html_headings.

(** 2026-10-14T12:00:00Z and one day later. *)
Definition t_mount : Z := 1792000800000.
Definition t_next_day : Z := 1792087200000.

(** A plain-text file, and an HTML file named in upper case with no MIME type. *)
Definition file_txt : File := mkFile "notes.txt" "text/plain" "hello".
Definition file_upper : File := mkFile "PAGE.HTML" "" html_headings.

(** The uploader after mounting on an empty table, selecting [file_xss] and
    loading it: title "Hi", a body, no insert pending. *)
Definition w_loaded : World :=
  {| w_ui := reader_onload turndown_fixture slugify_fixture
               (fst (handleFileSelect (w_ui (mount t_mount [])) file_xss)) (f_text file_xss);
     w_now := t_mount; w_reads := []; w_inflight := []; w_table := []; w_route := None |}.

(** [n] copies of [s]. *)
Fixpoint str_repeat (n : nat) (s : string) : string :=
  match n with O => EmptyString | S k => s ++ str_repeat k s end.

(** A page with a heading and a paragraph of 353 characters, and its
    conversion. *)
Definition long_para : string := str_repeat 29 "Lorem ipsum " ++ "dolor".
Definition html_long : string := "<h1>Notes</h1><p>" ++ long_para ++ "</p>".
Definition md_long : string := "# Notes" ++ nl ++ nl ++ long_para.

Definition turndown_long (html : string) : string :=
  if String.eqb html html_long then md_long else turndown_fixture html.

Definition file_long : File := mkFile "notes.html" "text/html" html_long.

(** The uploader after selecting and loading [file_long]. *)
Definition w_long_loaded : World :=
  {| w_ui := reader_onload turndown_long slugify_fixture
               (fst (handleFileSelect (w_ui (mount t_mount [])) file_long)) (f_text file_long);
     w_now := t_mount; w_reads := []; w_inflight := []; w_table := []; w_route := None |}.

(** Two local documents with quoted dates, and what [front-matter] returns
    for them. *)
Definition doc_summer_text : string :=
  "---" ++ nl ++ "title: Summer picks" ++ nl ++ "date: '2024-06-01'" ++ nl ++
  "slug: summer-picks" ++ nl ++ "excerpt: Our picks" ++ nl ++ "---" ++ nl ++ "Our picks".
Definition doc_archive_text : string :=
  "---" ++ nl ++ "title: Archive" ++ nl ++ "date: '2024-01-01'" ++ nl ++
  "slug: archive" ++ nl ++ "excerpt: Looking back" ++ nl ++ "---" ++ nl ++ "Looking back".

Definition front_matter_two (raw : string) : option (BlogFrontMatter * string) :=
  if String.eqb raw doc_summer_text
  then Some ({| fm_title := "Summer picks"; fm_date := "2024-06-01"; fm_slug := "summer-picks";
                fm_excerpt := "Our picks"; fm_featuredImage := None |}, "Our picks")
  else if String.eqb raw doc_archive_text
  then Some ({| fm_title := "Archive"; fm_date := "2024-01-01"; fm_slug := "archive";
                fm_excerpt := "Looking back"; fm_featuredImage := None |}, "Looking back")
  else None.

(** The newer document first, and the older one first. *)
Definition docs_newest_first : LocalDocs :=
  [("/content/blog/a-summer.md", Some doc_summer_text); ("/content/blog/b-archive.md", Some doc_archive_text)].
Definition docs_oldest_first : LocalDocs :=
  [("/content/blog/a-archive.md", Some doc_archive_text); ("/content/blog/b-summer.md", Some doc_summer_text)].

End Fixtures.

(** ** Statement helpers *)

(** [b] does not come after [a] in the descending order of [key]. *)
Definition key_desc {A} (key : A -> option Z) (a b : A) : Prop :=
  exists ka kb, key a = Some ka /\ key b = Some kb /\ kb <= ka.

(** [key] gives a number (not NaN) at [x]. *)
Definition key_defined {A} (key : A -> option Z) (x : A) : Prop := key x <> None.

(** Whether [getAllPosts] takes its local branch: the query resolved
    without a non-empty [data]. *)
Definition local_fallback (st : Store) : bool :=
  match select_all_ordered st with
  | Ok r => match data r with Some (_ :: _) => false | _ => true end
  | Throw _ => false
  end.

(** Whether [getPostBySlug] takes its local branch. *)
Definition slug_fallback (st : Store) (s : string) : bool :=
  match select_single st s with
  | Ok r => match data r with None => true | Some _ => false end
  | Throw _ => false
  end.

(** The records the local documents yield, one per document that loads and
    whose header parses, in document order. *)
Definition local_entries (marked_parse sanitize : string -> string)
    (frontMatter : string -> option (BlogFrontMatter * string)) (docs : LocalDocs)
  : list BlogPost :=
  flat_map (fun d =>
              match snd d with
              | Some raw =>
                  match frontMatter raw with
                  | Some (fm, body) => [local_post marked_parse sanitize fm body]
                  | None => []
                  end
              | None => []
              end) docs.

(** ** Sorting lemmas *)

Section SortFacts.
Context {A : Type}.

Lemma sort_insert_perm (cmp : A -> A -> Z) x l :
  Permutation (sort_insert cmp x l) (x :: l).
Proof.
  induction l as [|y ys IH]; simpl; [reflexivity|].
  destruct (cmp x y <? 0); [reflexivity|].
  rewrite IH. apply perm_swap.
Qed.

Lemma js_sort_fold_perm (cmp : A -> A -> Z) l acc :
  Permutation (fold_left (fun acc x => sort_insert cmp x acc) l acc) (l ++ acc).
Proof.
  revert acc; induction l as [|x l IH]; intro acc; simpl; [reflexivity|].
  rewrite IH, sort_insert_perm. symmetry. apply Permutation_middle.
Qed.

Lemma js_sort_perm (cmp : A -> A -> Z) l : Permutation (js_sort cmp l) l.
Proof.
  unfold js_sort. rewrite js_sort_fold_perm, app_nil_r. reflexivity.
Qed.

Variable key : A -> option Z.
Local Abbreviation key_defined := (key_defined key).

Lemma sort_insert_hd y x l :
  HdRel (key_desc key) y l -> key_desc key y x ->
  HdRel (key_desc key) y (sort_insert (cmp_desc key) x l).
Proof.
  destruct l as [|z zs]; simpl; intros Hd Hyx; [constructor; exact Hyx|].
  destruct (cmp_desc key x z <? 0); constructor; [exact Hyx|].
  now inversion Hd.
Qed.

Lemma sort_insert_sorted x l :
  key_defined x -> Forall key_defined l -> Sorted (key_desc key) l ->
  Sorted (key_desc key) (sort_insert (cmp_desc key) x l).
Proof.
  intros Hx. induction l as [|y ys IH]; simpl; intros Hall Hs.
  - repeat constructor.
  - inversion Hall as [|? ? Hy Hys]; subst. inversion Hs as [|? ? Hsys Hhd]; subst.
    unfold key_defined in *.
    destruct (key x) as [kx|] eqn:Ex; [|congruence].
    destruct (key y) as [ky|] eqn:Ey; [|congruence].
    unfold cmp_desc at 1. rewrite Ex, Ey.
    destruct (ky - kx <? 0) eqn:Hlt.
    + apply Z.ltb_lt in Hlt. constructor; [constructor; assumption|].
      constructor. exists kx, ky. repeat split; auto; lia.
    + apply Z.ltb_ge in Hlt. constructor; [apply IH; assumption|].
      apply sort_insert_hd; [assumption|]. exists ky, kx. repeat split; auto; lia.
Qed.

Lemma js_sort_sorted l :
  Forall key_defined l -> Sorted (key_desc key) (js_sort (cmp_desc key) l).
Proof.
  intro Hall. unfold js_sort.
  assert (Hgen : forall acc, Forall key_defined acc -> Sorted (key_desc key) acc ->
            Sorted (key_desc key) (fold_left (fun acc x => sort_insert (cmp_desc key) x acc) l acc)).
  { induction l as [|x l IH]; intros acc Hacc Hs; simpl; [assumption|].
    inversion Hall as [|? ? Hx Hl]; subst.
    apply IH; [assumption| |].
    - eapply Permutation_Forall; [symmetry; apply sort_insert_perm|].
      constructor; assumption.
    - apply sort_insert_sorted; assumption. }
  apply Hgen; constructor.
Qed.

End SortFacts.

(** ** Content resolution: facts *)

Section ResolutionFacts.

Variable marked_parse : string -> string.
Variable sanitize : string -> string.
Variable frontMatter : string -> option (BlogFrontMatter * string).
Variable date_time : string -> option Z.

Local Open Scope list_scope.

Abbreviation entries := (local_entries marked_parse sanitize frontMatter).
Abbreviation getAll := (getAllPosts marked_parse sanitize frontMatter date_time).
Abbreviation getOne := (getPostBySlug marked_parse sanitize frontMatter).

Lemma collect_local_spec docs posts :
  collect_local marked_parse sanitize frontMatter docs posts = Ok (posts ++ entries docs).
Proof.
  revert posts; induction docs as [|[path raw] rest IH]; intro posts; simpl.
  - now rewrite app_nil_r.
  - destruct raw as [text|]; simpl.
    + destruct (frontMatter text) as [[fm body]|]; simpl; rewrite IH; [|reflexivity].
      now rewrite <- app_assoc.
    + now rewrite IH.
Qed.

Lemma find_local_spec s docs :
  find_local marked_parse sanitize frontMatter s docs
  = Ok (find (fun p => String.eqb (slug p) s) (entries docs)).
Proof.
  induction docs as [|[path raw] rest IH]; simpl; [reflexivity|].
  destruct raw as [text|]; simpl; [|exact IH].
  destruct (frontMatter text) as [[fm body]|]; simpl; [|exact IH].
  destruct (String.eqb (fm_slug fm) s); simpl; [reflexivity|exact IH].
Qed.

Lemma in_local_entries p docs :
  In p (entries docs) ->
  exists path raw fm body, In (path, Some raw) docs /\ frontMatter raw = Some (fm, body)
                           /\ p = local_post marked_parse sanitize fm body.
Proof.
  unfold local_entries. intro Hin. apply in_flat_map in Hin as [[path raw] [Hd Hp]].
  simpl in Hp. destruct raw as [text|]; [|contradiction].
  destruct (frontMatter text) as [[fm body]|] eqn:Hfm; [|contradiction].
  destruct Hp as [Hp|[]]. exists path, text, fm, body. auto.
Qed.

Lemma find_all_false {A} (f : A -> bool) l :
  (forall x, In x l -> f x = false) -> find f l = None.
Proof.
  induction l as [|x l IH]; simpl; intro H; [reflexivity|].
  rewrite (H x (or_introl eq_refl)). apply IH. auto.
Qed.

Lemma filter_all_false {A} (f : A -> bool) l :
  (forall x, In x l -> f x = false) -> filter f l = [].
Proof.
  induction l as [|x l IH]; simpl; intro H; [reflexivity|].
  rewrite (H x (or_introl eq_refl)). apply IH. auto.
Qed.

Lemma getAll_remote st docs rows :
  select_all_ordered st = Ok (mkResp (Some rows) None) -> rows <> [] ->
  getAll st docs = Ok (map row_to_post rows).
Proof.
  intros Hq Hne. unfold getAllPosts. rewrite Hq. simpl.
  destruct rows; [congruence|reflexivity].
Qed.

Lemma getAll_local st docs :
  local_fallback st = true ->
  getAll st docs = Ok (js_sort (by_date date_time) (entries docs)).
Proof.
  unfold local_fallback, getAllPosts. intro H.
  destruct (select_all_ordered st) as [r|e]; [|discriminate]. simpl.
  rewrite collect_local_spec. simpl.
  destruct (data r) as [[|x xs]|]; [reflexivity|discriminate|reflexivity].
Qed.

Lemma getOne_local st docs s :
  slug_fallback st s = true ->
  getOne st docs s = Ok (find (fun p => String.eqb (slug p) s) (entries docs)).
Proof.
  unfold slug_fallback, getPostBySlug. intro H.
  destruct (select_single st s) as [r|e]; [|discriminate]. simpl.
  destruct (data r); [discriminate|]. now rewrite find_local_spec.
Qed.

End ResolutionFacts.

(** ** Claims about content resolution *)

(** C2 (counterexample): the remote branch keeps the store's
    [created_at]-descending order, which need not be [date]-descending: a row
    inserted later with an earlier [date] comes first. *)
Lemma getAllPosts_remote_not_date_sorted :
  getAllPosts (fun s => s) (fun s => s) (fun _ => None) Fixtures.iso_date_time
    Fixtures.store_backdated []
  = Ok [row_to_post Fixtures.row_backdated; row_to_post Fixtures.row_recent]
  /\ ~ Sorted (key_desc (fun p => Fixtures.iso_date_time (date p)))
         [row_to_post Fixtures.row_backdated; row_to_post Fixtures.row_recent].
Proof.
  split; [vm_compute; reflexivity|].
  intro Hs. inversion Hs as [|? ? _ Hhd]; subst.
  inversion Hhd as [|? ? Hk]; subst.
  destruct Hk as (ka & kb & Ha & Hb & Hle).
  vm_compute in Ha, Hb. injection Ha as <-. injection Hb as <-. lia.
Qed.

(** C2 (amended): when the store answers with rows, [getAllPosts] returns
    them, mapped, newest [created_at] first; on the local branch, when every
    returned [date] parses, the list is sorted by [date] descending. *)
Theorem getAllPosts_order marked_parse sanitize frontMatter date_time :
  (forall st docs, remote st = Remote_up -> table st <> [] ->
     exists rows,
       getAllPosts marked_parse sanitize frontMatter date_time st docs = Ok (map row_to_post rows)
       /\ Permutation rows (table st)
       /\ Sorted (key_desc (fun r => Some (row_created_at r))) rows)
  /\ (forall st docs l, local_fallback st = true ->
        getAllPosts marked_parse sanitize frontMatter date_time st docs = Ok l ->
        Forall (key_defined (fun p => date_time (date p))) l ->
        Sorted (key_desc (fun p => date_time (date p))) l).
Proof.
  split.
  - intros st docs Hup Hne.
    set (rows := js_sort (cmp_desc (fun r => Some (row_created_at r))) (table st)).
    exists rows. split; [|split].
    + apply getAll_remote.
      * unfold select_all_ordered. now rewrite Hup.
      * intro E. apply Hne. apply Permutation_nil.
        rewrite <- E. apply js_sort_perm.
    + apply js_sort_perm.
    + apply js_sort_sorted. apply Forall_forall. intros r _. unfold key_defined. discriminate.
  - intros st docs l Hloc Hget Hdef.
    rewrite getAll_local in Hget by exact Hloc. injection Hget as <-.
    apply js_sort_sorted.
    eapply Permutation_Forall; [apply js_sort_perm|exact Hdef].
Qed.

(** C3: neither read raises.  [getAllPosts] always resolves, to [[]] when
    the remote call itself throws; [getPostBySlug] always resolves, to
    "not found" ([None]) when no remote row and no parseable local document
    has the slug. *)
Theorem reads_never_raise marked_parse sanitize frontMatter date_time :
  (forall st docs, exists l,
     getAllPosts marked_parse sanitize frontMatter date_time st docs = Ok l)
  /\ (forall st docs m, remote st = Remote_throws m ->
        getAllPosts marked_parse sanitize frontMatter date_time st docs = Ok [])
  /\ (forall st docs s, exists r,
        getPostBySlug marked_parse sanitize frontMatter st docs s = Ok r)
  /\ (forall st docs s,
        (forall r, In r (table st) -> row_slug r <> s) ->
        (forall path raw fm body, In (path, Some raw) docs ->
           frontMatter raw = Some (fm, body) -> fm_slug fm <> s) ->
        getPostBySlug marked_parse sanitize frontMatter st docs s = Ok None).
Proof.
  split; [|split; [|split]].
  - intros st docs. unfold getAllPosts, try_catch.
    destruct (_ <- select_all_ordered st ;; _) as [l|e]; eauto.
  - intros st docs m Hm. unfold getAllPosts, select_all_ordered. now rewrite Hm.
  - intros st docs s. unfold getPostBySlug, try_catch.
    destruct (_ <- select_single st s ;; _) as [r|e]; eauto.
  - intros st docs s Hrows Hdocs.
    assert (Hfb : (exists m, remote st = Remote_throws m) \/ slug_fallback st s = true).
    { unfold slug_fallback, select_single.
      destruct (remote st) as [|m|m]; eauto.
      right. rewrite filter_all_false; [reflexivity|].
      intros r Hr. apply String.eqb_neq. now apply Hrows. }
    destruct Hfb as [[m Hm]|Hfb].
    + unfold getPostBySlug, select_single. now rewrite Hm.
    + rewrite getOne_local by exact Hfb. f_equal. apply find_all_false.
      intros p Hp. apply in_local_entries in Hp as (path & raw & fm & body & Hd & Hfm & ->).
      apply String.eqb_neq. simpl. eapply Hdocs; eauto.
Qed.

(** C4 (counterexample): with an empty remote table, a local document whose
    header has [title: ''] is returned with an empty [title]. *)
Lemma getAllPosts_returns_empty_title :
  getAllPosts (fun s => s) (fun s => s) Fixtures.front_matter_untitled Fixtures.iso_date_time
    (mkStore [] Remote_up) Fixtures.docs_untitled
  = Ok [{| title := ""; date := "2024-01-01"; slug := "untitled"; excerpt := "";
           featuredImage := None; content := "Body text" |}].
Proof. vm_compute. reflexivity. Qed.

(** C4 (amended): every record either read returns is a stored remote row,
    passed through field by field, or is built from a local document that
    loaded and whose header parsed, with the header's fields as they are
    and [content] = [sanitize (marked_parse body)]. *)
Theorem returned_records_origin marked_parse sanitize frontMatter date_time :
  (forall st docs l p,
     getAllPosts marked_parse sanitize frontMatter date_time st docs = Ok l -> In p l ->
     (exists r, In r (table st) /\ p = row_to_post r)
     \/ (exists path raw fm body, In (path, Some raw) docs /\ frontMatter raw = Some (fm, body)
         /\ p = local_post marked_parse sanitize fm body))
  /\ (forall st docs s p,
     getPostBySlug marked_parse sanitize frontMatter st docs s = Ok (Some p) ->
     (exists r, In r (table st) /\ p = row_to_post r)
     \/ (exists path raw fm body, In (path, Some raw) docs /\ frontMatter raw = Some (fm, body)
         /\ p = local_post marked_parse sanitize fm body)).
Proof.
  split.
  - intros st docs l p Hget Hin.
    destruct (local_fallback st) eqn:Hloc.
    + rewrite getAll_local in Hget by exact Hloc. injection Hget as <-.
      right. apply in_local_entries.
      eapply Permutation_in; [apply js_sort_perm|exact Hin].
    + unfold local_fallback in Hloc. unfold getAllPosts in Hget.
      destruct (select_all_ordered st) as [r|e] eqn:Hq; simpl in Hget.
      * destruct (data r) as [[|x xs]|] eqn:Hd; try discriminate.
        injection Hget as <-. left. change (In p (map row_to_post (x :: xs))) in Hin.
        apply in_map_iff in Hin as (row & <- & Hrow). exists row. split; [|reflexivity].
        unfold select_all_ordered in Hq.
        destruct (remote st); try discriminate; injection Hq as <-; simpl in Hd;
          try discriminate.
        injection Hd as Hd. eapply Permutation_in; [apply js_sort_perm|].
        rewrite Hd. exact Hrow.
      * injection Hget as <-. destruct Hin.
  - intros st docs s p Hget.
    destruct (slug_fallback st s) eqn:Hfb.
    + rewrite getOne_local in Hget by exact Hfb. injection Hget as Hf.
      right. apply in_local_entries. apply find_some in Hf. exact (proj1 Hf).
    + unfold slug_fallback in Hfb. unfold getPostBySlug in Hget.
      destruct (select_single st s) as [r|e] eqn:Hq; simpl in Hget; [|discriminate].
      destruct (data r) as [row|] eqn:Hd; [|discriminate].
      injection Hget as <-. left. exists row. split; [|reflexivity].
      unfold select_single in Hq.
      destruct (remote st); try discriminate; [|injection Hq as <-; discriminate].
      destruct (filter _ (table st)) as [|x [|y ys]] eqn:Hfil; injection Hq as <-;
        try discriminate.
      simpl in Hd. injection Hd as ->.
      assert (Hx : In row (filter (fun r => String.eqb (row_slug r) s) (table st)))
        by (rewrite Hfil; left; reflexivity).
      apply filter_In in Hx. exact (proj1 Hx).
Qed.

(** C5: on the local branch of [getAllPosts], the result holds exactly one
    record per local document that loads and whose header parses (the others
    are skipped), each with [content] = [sanitize (marked_parse body)]; on
    the local branch of [getPostBySlug], the result is the first such record
    with the requested slug. *)
Theorem local_path_records marked_parse sanitize frontMatter date_time :
  (forall st docs, local_fallback st = true ->
     exists l, getAllPosts marked_parse sanitize frontMatter date_time st docs = Ok l
               /\ Permutation l (local_entries marked_parse sanitize frontMatter docs))
  /\ (forall st docs s, slug_fallback st s = true ->
        getPostBySlug marked_parse sanitize frontMatter st docs s
        = Ok (find (fun p => String.eqb (slug p) s)
                   (local_entries marked_parse sanitize frontMatter docs))).
Proof.
  split.
  - intros st docs Hloc. eexists. split.
    + apply getAll_local. exact Hloc.
    + apply js_sort_perm.
  - intros st docs s Hfb. apply getOne_local. exact Hfb.
Qed.

(** ** Metadata extraction: facts *)

Section RegexFacts.

Lemma str_app_nil_r x : x ++ EmptyString = x.
Proof. induction x as [|c x IH]; simpl; [reflexivity|now rewrite IH]. Qed.

Lemma take_while_app_stop p x tail :
  (tail = EmptyString \/ exists c r, tail = String c r /\ p c = false) ->
  take_while p (x ++ tail) = take_while p x.
Proof.
  intro Ht. induction x as [|c x IH]; simpl.
  - destruct Ht as [->|(c & r & -> & Hc)]; simpl; [reflexivity|now rewrite Hc].
  - now rewrite IH.
Qed.

Lemma take_while_all p x : str_forallb p x = true -> take_while p x = x.
Proof.
  induction x as [|c x IH]; simpl; [reflexivity|].
  intro H. apply andb_prop in H as [Hc Hx]. now rewrite Hc, IH.
Qed.

Lemma ltrim_forallb p x : str_forallb p x = true -> str_forallb p (ltrim x) = true.
Proof.
  induction x as [|c x IH]; simpl; [reflexivity|].
  intro H. destruct (is_ws c); [apply andb_prop in H; apply IH; tauto|exact H].
Qed.

Lemma ltrim_idem x : ltrim (ltrim x) = ltrim x.
Proof.
  induction x as [|c x IH]; simpl; [reflexivity|].
  destruct (is_ws c) eqn:Hc; [exact IH|simpl; now rewrite Hc].
Qed.

Lemma ltrim_nonempty x : has_non_ws x = true -> ltrim x <> EmptyString.
Proof.
  unfold has_non_ws. induction x as [|c x IH]; simpl; [discriminate|].
  destruct (is_ws c); simpl; [exact IH|discriminate].
Qed.

Lemma take_while_ws_app x r :
  has_non_ws x = true -> take_while is_ws (x ++ r) = take_while is_ws x.
Proof.
  unfold has_non_ws. induction x as [|c x IH]; simpl; [discriminate|].
  destruct (is_ws c); simpl; [intro H; now rewrite IH|reflexivity].
Qed.

Lemma drop_ws x r :
  Regex.drop (String.length (take_while is_ws x)) (x ++ r) = ltrim x ++ r.
Proof.
  induction x as [|c x IH]; simpl; [reflexivity|].
  destruct (is_ws c); simpl; [exact IH|reflexivity].
Qed.

Lemma title_backtrack_eq k r :
  Regex.title_backtrack k r =
  match take_while (fun c => negb (is_line_term c)) (Regex.drop k r) with
  | EmptyString => match k with O => None | S k' => Regex.title_backtrack k' r end
  | g => Some g
  end.
Proof. destruct k; reflexivity. Qed.

Lemma title_scan_rest x rest :
  no_term x = true -> Regex.title_scan false (x ++ String "010"%char rest) = Regex.title_scan true rest.
Proof.
  unfold no_term. induction x as [|c x IH]; simpl; [reflexivity|].
  intro H. apply andb_prop in H as [Hc Hx].
  destruct (is_line_term c); [discriminate|]. exact (IH Hx).
Qed.

Lemma title_scan_line_end x :
  no_term x = true -> Regex.title_scan false x = None.
Proof.
  unfold no_term. induction x as [|c x IH]; simpl; [reflexivity|].
  intro H. apply andb_prop in H as [Hc Hx].
  destruct (is_line_term c); [discriminate|]. exact (IH Hx).
Qed.

Lemma title_scan_skip x rest :
  no_term x = true -> starts_hash x = false ->
  Regex.title_scan true (x ++ String "010"%char rest) = Regex.title_scan true rest.
Proof.
  destruct x as [|c x]; simpl; [reflexivity|].
  intros H Hh. rewrite Hh. simpl. unfold no_term in H. simpl in H.
  apply andb_prop in H as [Hc Hx]. destruct (is_line_term c); [discriminate|].
  now apply title_scan_rest.
Qed.

Lemma title_scan_heading t tail :
  no_term t = true -> has_non_ws t = true ->
  (tail = EmptyString \/ exists r, tail = String "010"%char r) ->
  Regex.title_scan true (String "#"%char (t ++ tail)) = Some (ltrim t).
Proof.
  intros Hnt Hws Htail. simpl.
  rewrite take_while_ws_app by exact Hws.
  rewrite title_backtrack_eq, drop_ws.
  rewrite take_while_app_stop.
  2: { destruct Htail as [->|(r & ->)]; [left; reflexivity|right; eauto]. }
  rewrite take_while_all by (apply ltrim_forallb; exact Hnt).
  destruct (ltrim t) eqn:E; [exfalso; exact (ltrim_nonempty t Hws E)|reflexivity].
Qed.

Lemma title_match_join pre t post :
  Forall (fun x => no_term x = true /\ starts_hash x = false) pre ->
  no_term t = true -> has_non_ws t = true ->
  Regex.title_match (join_lines (pre ++ String "#"%char t :: post)%list) = Some (ltrim t).
Proof.
  unfold Regex.title_match. intros Hpre Hnt Hws.
  induction Hpre as [|x pre' [Hx Hh] Hpre' IH]; simpl.
  - destruct post as [|y ys].
    + assert (H := title_scan_heading t EmptyString Hnt Hws (or_introl eq_refl)).
      rewrite str_app_nil_r in H. exact H.
    + apply title_scan_heading; eauto.
  - destruct (pre' ++ String "#"%char t :: post)%list eqn:E;
      [destruct pre'; discriminate|].
    rewrite title_scan_skip by assumption. exact IH.
Qed.

Lemma title_match_none ls :
  Forall (fun x => no_term x = true /\ starts_hash x = false) ls ->
  Regex.title_match (join_lines ls) = None.
Proof.
  unfold Regex.title_match. induction 1 as [|x ls [Hx Hh] Hls IH]; [reflexivity|].
  simpl. destruct ls as [|y ys].
  - destruct x as [|c x]; [reflexivity|]. simpl in Hh |- *. rewrite Hh. simpl.
    unfold no_term in Hx. simpl in Hx. apply andb_prop in Hx as [Hc Hx].
    destruct (is_line_term c); [discriminate|]. now apply title_scan_line_end.
  - rewrite title_scan_skip by assumption. exact IH.
Qed.

Lemma is_nl_term c : is_line_term c = false -> Regex.not_hash_nl c = negb (is_hash c).
Proof.
  unfold is_line_term, Regex.not_hash_nl, is_nl.
  destruct (Nat.eqb (nat_of_ascii c) 10); simpl; [discriminate|].
  now rewrite orb_false_r.
Qed.

Lemma excerpt_scan_rest x rest :
  no_term x = true -> Regex.excerpt_scan false (x ++ String "010"%char rest) = Regex.excerpt_scan true rest.
Proof.
  unfold no_term. induction x as [|c x IH]; simpl; [reflexivity|].
  intro H. apply andb_prop in H as [Hc Hx].
  destruct (is_line_term c); [discriminate|]. exact (IH Hx).
Qed.

Lemma excerpt_scan_line_end x :
  no_term x = true -> Regex.excerpt_scan false x = None.
Proof.
  unfold no_term. induction x as [|c x IH]; simpl; [reflexivity|].
  intro H. apply andb_prop in H as [Hc Hx].
  destruct (is_line_term c); [discriminate|]. exact (IH Hx).
Qed.

(** A line the excerpt pattern passes over: empty, or starting with [#]. *)
Lemma excerpt_scan_skip x rest :
  no_term x = true -> (x = EmptyString \/ starts_hash x = true) ->
  Regex.excerpt_scan true (x ++ String "010"%char rest) = Regex.excerpt_scan true rest.
Proof.
  intros Hx Hs. destruct x as [|c x]; [reflexivity|].
  destruct Hs as [Hs|Hs]; [discriminate|]. simpl in Hs.
  unfold no_term in Hx. simpl in Hx. apply andb_prop in Hx as [Hc Hx].
  simpl. unfold Regex.not_hash_nl. rewrite Hs. simpl.
  destruct (is_line_term c); [discriminate|]. now apply excerpt_scan_rest.
Qed.

Lemma excerpt_scan_found l tail :
  no_term l = true -> l <> EmptyString -> starts_hash l = false ->
  (tail = EmptyString \/ exists r, tail = String "010"%char r) ->
  Regex.excerpt_scan true (l ++ tail) = Some (take_while Regex.not_hash_nl l).
Proof.
  intros Hl Hne Hh Htail. destruct l as [|c l]; [congruence|].
  simpl in Hh. unfold no_term in Hl. simpl in Hl. apply andb_prop in Hl as [Hc _].
  assert (Hnc : Regex.not_hash_nl c = true).
  { rewrite is_nl_term; [now rewrite Hh|now destruct (is_line_term c)]. }
  simpl. rewrite Hnc. f_equal. f_equal.
  apply take_while_app_stop.
  destruct Htail as [->|(r & ->)]; [left; reflexivity|right; eauto].
Qed.

Lemma excerpt_match_join pre l post :
  Forall (fun x => no_term x = true /\ (x = EmptyString \/ starts_hash x = true)) pre ->
  no_term l = true -> l <> EmptyString -> starts_hash l = false ->
  Regex.excerpt_match (join_lines (pre ++ l :: post)%list) = Some (take_while Regex.not_hash_nl l).
Proof.
  unfold Regex.excerpt_match. intros Hpre Hl Hne Hh.
  induction Hpre as [|x pre' [Hx Hs] Hpre' IH]; simpl.
  - destruct post as [|y ys].
    + assert (H := excerpt_scan_found l EmptyString Hl Hne Hh (or_introl eq_refl)).
      rewrite str_app_nil_r in H. exact H.
    + apply excerpt_scan_found; eauto.
  - destruct (pre' ++ l :: post)%list eqn:E; [destruct pre'; discriminate|].
    rewrite excerpt_scan_skip by assumption. exact IH.
Qed.

Lemma excerpt_match_none ls :
  Forall (fun x => no_term x = true /\ (x = EmptyString \/ starts_hash x = true)) ls ->
  Regex.excerpt_match (join_lines ls) = None.
Proof.
  unfold Regex.excerpt_match. induction 1 as [|x ls [Hx Hs] Hls IH]; [reflexivity|].
  simpl. destruct ls as [|y ys].
  - destruct x as [|c x]; [reflexivity|]. destruct Hs as [Hs|Hs]; [discriminate|].
    simpl in Hs |- *. unfold Regex.not_hash_nl. rewrite Hs. simpl.
    unfold no_term in Hx. simpl in Hx. apply andb_prop in Hx as [Hc Hx].
    destruct (is_line_term c); [discriminate|]. now apply excerpt_scan_line_end.
  - rewrite excerpt_scan_skip by assumption. exact IH.
Qed.

End RegexFacts.

(** ** Uploader: facts *)

Section UploaderFacts.

Variable turndown : string -> string.
Variable slugify : string -> string.

Ltac unfold_handlers :=
  unfold select_file, click_deploy, handleFileSelect, handleDeploy_start,
    handleDeploy_finish, set_ui, set_error, set_deploying, edit_title, edit_markdown,
    reader_onload in *.

Ltac split_ifs :=
  repeat match goal with
         | |- context [if ?b then _ else _] => destruct b
         end.

(** No event changes the [date] or [featuredImage] of the draft. *)
Lemma step_keeps_date_image w w' :
  step turndown slugify w w' ->
  m_date (u_metadata (w_ui w')) = m_date (u_metadata (w_ui w))
  /\ m_featuredImage (u_metadata (w_ui w')) = m_featuredImage (u_metadata (w_ui w)).
Proof.
  destruct 1; unfold_handlers; simpl; split_ifs; simpl; auto.
Qed.

(** In-flight inserts: none and not deploying, or exactly one and deploying. *)
Definition inflight_inv (w : World) : Prop :=
  (w_inflight w = [] /\ u_isDeploying (w_ui w) = false)
  \/ (exists p, w_inflight w = [p] /\ u_isDeploying (w_ui w) = true).

Lemma step_inflight_inv w w' :
  inflight_inv w -> step turndown slugify w w' -> inflight_inv w'.
Proof.
  intros Hinv Hs. destruct Hs as [w t Ht|w f|w pre f post Hr|w v Hm|w v Hm|w Hm Hen
                                 |w p s rest Hq Htk|w p s rest msg Hq].
  - exact Hinv.
  - unfold inflight_inv, select_file, handleFileSelect in *. split_ifs; exact Hinv.
  - exact Hinv.
  - exact Hinv.
  - exact Hinv.
  - unfold deploy_enabled in Hen. apply negb_true_iff in Hen.
    apply orb_false_iff in Hen as [Hen Hdep]. apply orb_false_iff in Hen as [Ht Hmd].
    destruct Hinv as [[Hnil _]|(p & _ & Hd)]; [|congruence].
    unfold inflight_inv, click_deploy, handleDeploy_start. simpl.
    rewrite Ht, Hmd. simpl. right. eexists. rewrite Hnil. split; reflexivity.
  - destruct Hinv as [[Hnil _]|(p' & Hp & _)]; [congruence|].
    rewrite Hp in Hq. injection Hq as _ <-. left. split; reflexivity.
  - destruct Hinv as [[Hnil _]|(p' & Hp & _)]; [congruence|].
    rewrite Hp in Hq. injection Hq as _ <-. left. split; reflexivity.
Qed.

Lemma reachable_inflight_inv w : reachable turndown slugify w -> inflight_inv w.
Proof.
  induction 1 as [now tbl|w w' _ IH Hs].
  - left. split; reflexivity.
  - eapply step_inflight_inv; eassumption.
Qed.

End UploaderFacts.

(** ** Claims about the uploader *)

(** C6 (counterexample): for a page with an [h2] before its [h1] and a [#]
    inside a paragraph, the extracted title is ["# Intro"] (the subheading,
    keeping its second [#]), not ["Main"], and the excerpt is ["C"], cut at
    the [#], not ["C# rocks"]. *)
Lemma upload_metadata_subheading_and_hash :
  m_title (u_metadata (reader_onload Fixtures.turndown_fixture Fixtures.slugify_fixture
                         (w_ui (mount Fixtures.t_mount [])) Fixtures.html_headings)) = "# Intro"
  /\ m_excerpt (u_metadata (reader_onload Fixtures.turndown_fixture Fixtures.slugify_fixture
                         (w_ui (mount Fixtures.t_mount [])) Fixtures.html_headings)) = "C".
Proof. split; vm_compute; reflexivity. Qed.

(** C6 (amended): over the converted text, read as lines.  If the first
    line starting with [#] is [#t] with a non-blank [t], the title is [t]
    trimmed and the slug is [slugify] of [t] (leading blanks removed)
    lower-cased; if no line starts with [#], title and slug are empty.  If
    the first line that is non-empty and does not start with [#] is [l],
    the excerpt is [l] up to its first [#], trimmed and cut to 200
    characters; if there is no such line, the excerpt is empty. *)
Theorem upload_metadata_extraction turndown slugify :
  (forall u html pre t post,
     turndown html = join_lines (pre ++ String "#"%char t :: post)%list ->
     Forall (fun x => no_term x = true /\ starts_hash x = false) pre ->
     no_term t = true -> has_non_ws t = true ->
     m_title (u_metadata (reader_onload turndown slugify u html)) = trim t
     /\ m_slug (u_metadata (reader_onload turndown slugify u html))
        = slugify (toLowerCase (ltrim t)))
  /\ (forall u html ls,
     turndown html = join_lines ls ->
     Forall (fun x => no_term x = true /\ starts_hash x = false) ls ->
     m_title (u_metadata (reader_onload turndown slugify u html)) = EmptyString
     /\ m_slug (u_metadata (reader_onload turndown slugify u html)) = EmptyString)
  /\ (forall u html pre l post,
     turndown html = join_lines (pre ++ l :: post)%list ->
     Forall (fun x => no_term x = true /\ (x = EmptyString \/ starts_hash x = true)) pre ->
     no_term l = true -> l <> EmptyString -> starts_hash l = false ->
     m_excerpt (u_metadata (reader_onload turndown slugify u html))
     = slice0 200 (trim (take_while Regex.not_hash_nl l)))
  /\ (forall u html ls,
     turndown html = join_lines ls ->
     Forall (fun x => no_term x = true /\ (x = EmptyString \/ starts_hash x = true)) ls ->
     m_excerpt (u_metadata (reader_onload turndown slugify u html)) = EmptyString).
Proof.
  split; [|split; [|split]].
  - intros u html pre t post Hmd Hpre Hnt Hws. unfold reader_onload. simpl.
    rewrite Hmd, title_match_join by assumption. unfold trim. rewrite ltrim_idem.
    split; reflexivity.
  - intros u html ls Hmd Hls. unfold reader_onload. simpl.
    rewrite Hmd, title_match_none by assumption. split; reflexivity.
  - intros u html pre l post Hmd Hpre Hl Hne Hh. unfold reader_onload. simpl.
    rewrite Hmd, excerpt_match_join by assumption. reflexivity.
  - intros u html ls Hmd Hls. unfold reader_onload. simpl.
    rewrite Hmd, excerpt_match_none by assumption. reflexivity.
Qed.

(** C7: submitting with an empty title or an empty body issues no insert,
    leaves the table, the route and the draft (file, markdown, metadata:
    title, slug, date, excerpt, featured image) as they are, and sets the
    error shown to the user; nothing is thrown out of the handler. *)
Theorem deploy_rejects_missing_fields slugify w :
  (m_title (u_metadata (w_ui w)) = EmptyString \/ u_markdown (w_ui w) = EmptyString) ->
  w_inflight (click_deploy slugify w) = w_inflight w
  /\ w_table (click_deploy slugify w) = w_table w
  /\ w_route (click_deploy slugify w) = w_route w
  /\ u_error (w_ui (click_deploy slugify w)) = Some "Title and content are required"
  /\ u_isDeploying (w_ui (click_deploy slugify w)) = false
  /\ u_file (w_ui (click_deploy slugify w)) = u_file (w_ui w)
  /\ u_markdown (w_ui (click_deploy slugify w)) = u_markdown (w_ui w)
  /\ u_metadata (w_ui (click_deploy slugify w)) = u_metadata (w_ui w).
Proof.
  intro Hempty.
  assert (Hinv : (String.eqb (m_title (u_metadata (w_ui w))) EmptyString
                  || String.eqb (u_markdown (w_ui w)) EmptyString)%bool = true).
  { destruct Hempty as [H|H]; rewrite H; [reflexivity|apply orb_true_r]. }
  unfold click_deploy, handleDeploy_start. rewrite Hinv. simpl.
  rewrite app_nil_r. repeat split; reflexivity.
Qed.

(** C8 (counterexample): the stored [created_at] is the client's clock when
    the user clicked, not the time the store performs the insert: clicked at
    [t_mount], inserted once the clock reads [t_next_day], the row carries
    [t_mount]. *)
Lemma deploy_created_at_client_clock :
  exists w1 w2 w3 w4 w5,
    step Fixtures.turndown_fixture Fixtures.slugify_fixture (mount Fixtures.t_mount []) w1
    /\ step Fixtures.turndown_fixture Fixtures.slugify_fixture w1 w2
    /\ step Fixtures.turndown_fixture Fixtures.slugify_fixture w2 w3
    /\ step Fixtures.turndown_fixture Fixtures.slugify_fixture w3 w4
    /\ step Fixtures.turndown_fixture Fixtures.slugify_fixture w4 w5
    /\ w_now w4 = Fixtures.t_next_day
    /\ map row_created_at (w_table w5) = [Fixtures.t_mount].
Proof.
  do 5 eexists. split; [apply (step_select _ _ _ Fixtures.file_xss)|].
  split; [apply (step_load _ _ _ [] Fixtures.file_xss []); reflexivity|].
  split; [apply step_click; vm_compute; [discriminate|reflexivity]|].
  split; [apply (step_tick _ _ _ Fixtures.t_next_day); vm_compute; discriminate|].
  split; [eapply step_insert_ok; vm_compute; reflexivity|].
  split; reflexivity.
Qed.

(** C8 (amended): a valid submission inserts a record with [slug] =
    [slugify] of the current title lower-cased, [excerpt] = the first 200
    characters of the body when the excerpt field is empty, no
    [featured_image] when that field is empty, and as [created_at] the
    client's clock at the click. *)
Theorem deploy_payload slugify u now :
  m_title (u_metadata u) <> EmptyString -> u_markdown u <> EmptyString ->
  exists p,
    handleDeploy_start slugify u now = (set_error (set_deploying u true) None, Some (p, p_slug p))
    /\ p_slug p = slugify (toLowerCase (m_title (u_metadata u)))
    /\ p_title p = m_title (u_metadata u)
    /\ p_date p = m_date (u_metadata u)
    /\ p_excerpt p = (if String.eqb (m_excerpt (u_metadata u)) EmptyString
                      then slice0 200 (u_markdown u) else m_excerpt (u_metadata u))
    /\ p_featured_image p = (if String.eqb (m_featuredImage (u_metadata u)) EmptyString
                             then None else Some (m_featuredImage (u_metadata u)))
    /\ p_created_at p = now.
Proof.
  intros Ht Hm. apply String.eqb_neq in Ht, Hm.
  unfold handleDeploy_start. rewrite Ht, Hm. simpl.
  lazymatch goal with |- exists p, (_, Some (?q, _)) = _ /\ _ => exists q end.
  split; [reflexivity|].
  simpl. repeat split; try reflexivity.
  - unfold str_or. destruct (m_excerpt (u_metadata u)); reflexivity.
  - destruct (m_featuredImage (u_metadata u)); reflexivity.
Qed.

(** C9 (counterexample): mounted on 2026-10-14, a file selected on
    2026-10-15 leaves the draft [date] at 2026-10-14. *)
Lemma file_select_keeps_mount_date :
  exists w1 w2 w3,
    step Fixtures.turndown_fixture Fixtures.slugify_fixture (mount Fixtures.t_mount []) w1
    /\ step Fixtures.turndown_fixture Fixtures.slugify_fixture w1 w2
    /\ step Fixtures.turndown_fixture Fixtures.slugify_fixture w2 w3
    /\ w2 = select_file w1 Fixtures.file_headings
    /\ Clock.iso_day (w_now w2) = "2026-10-15"
    /\ m_date (u_metadata (w_ui w3)) = "2026-10-14".
Proof.
  do 3 eexists. split; [apply (step_tick _ _ _ Fixtures.t_next_day); vm_compute; discriminate|].
  split; [apply (step_select _ _ _ Fixtures.file_headings)|].
  split; [apply (step_load _ _ _ [] Fixtures.file_headings []); reflexivity|].
  split; [reflexivity|]. split; vm_compute; reflexivity.
Qed.

(** C9 (amended): an accepted file is recorded and read; its [onload] sets
    the markdown body, and the title, slug and excerpt from the first
    heading line and the first paragraph line of the body (C6), and keeps
    [date] and [featuredImage].  No event changes these two: in every state
    reached from a mount, [date] is the day of the mount and the featured
    image is empty. *)
Theorem file_select_updates turndown slugify :
  (forall u f,
     (String.eqb (f_type f) "text/html" || ends_with ".html" (toLowerCase (f_name f)))%bool = true ->
     snd (handleFileSelect u f) = Some f
     /\ u_file (fst (handleFileSelect u f)) = Some f
     /\ u_error (fst (handleFileSelect u f)) = None
     /\ u_metadata (fst (handleFileSelect u f)) = u_metadata u)
  /\ (forall u html,
     u_markdown (reader_onload turndown slugify u html) = turndown html
     /\ m_title (u_metadata (reader_onload turndown slugify u html))
        = match Regex.title_match (turndown html) with Some g => trim g | None => EmptyString end
     /\ m_slug (u_metadata (reader_onload turndown slugify u html))
        = match Regex.title_match (turndown html) with
          | Some g => slugify (toLowerCase g) | None => EmptyString end
     /\ m_excerpt (u_metadata (reader_onload turndown slugify u html))
        = match Regex.excerpt_match (turndown html) with
          | Some x => slice0 200 (trim x) | None => EmptyString end
     /\ m_date (u_metadata (reader_onload turndown slugify u html)) = m_date (u_metadata u)
     /\ m_featuredImage (u_metadata (reader_onload turndown slugify u html))
        = m_featuredImage (u_metadata u))
  /\ (forall now tbl w,
     clos_refl_trans_n1 _ (step turndown slugify) (mount now tbl) w ->
     m_date (u_metadata (w_ui w)) = Clock.iso_day now
     /\ m_featuredImage (u_metadata (w_ui w)) = EmptyString).
Proof.
  split; [|split].
  - intros u f Hok. unfold handleFileSelect.
    destruct (String.eqb (f_type f) "text/html"), (ends_with ".html" (toLowerCase (f_name f)));
      try discriminate; simpl; repeat split; reflexivity.
  - intros u html. repeat split; reflexivity.
  - intros now tbl w Hrt. induction Hrt as [|w1 w2 Hs _ [IHd IHf]].
    + split; reflexivity.
    + destruct (step_keeps_date_image _ _ _ _ Hs) as [Hd Hf].
      rewrite Hd, Hf. split; assumption.
Qed.

(** C10: in every reachable state at most one insert is awaited, and while
    one is, the deploy button is disabled, so no second click can issue a
    second insert. *)
Theorem single_submission_in_flight turndown slugify w :
  reachable turndown slugify w ->
  (length (w_inflight w) <= 1)%nat
  /\ (w_inflight w <> [] -> deploy_enabled (w_ui w) = false).
Proof.
  intro Hr. destruct (reachable_inflight_inv _ _ _ Hr) as [[Hnil _]|(p & Hp & Hd)].
  - rewrite Hnil. split; [simpl; lia|congruence].
  - rewrite Hp. split; [simpl; lia|]. intros _.
    unfold deploy_enabled. rewrite Hd, orb_true_r. reflexivity.
Qed.

(** C1 (defect): the uploader stores the converted markdown itself as
    [content], neither rendered nor sanitized, and the remote read returns
    it unchanged whatever renderer and sanitizer the local path uses: an
    uploaded page showing [<img src=x onerror=alert(1)>] as text yields a
    post whose [content] carries that tag, injected as HTML by [BlogPost]. *)
Theorem upload_content_stored_unsanitized :
  exists w1 w2 w3 w4,
    step Fixtures.turndown_fixture Fixtures.slugify_fixture (mount Fixtures.t_mount []) w1
    /\ step Fixtures.turndown_fixture Fixtures.slugify_fixture w1 w2
    /\ step Fixtures.turndown_fixture Fixtures.slugify_fixture w2 w3
    /\ step Fixtures.turndown_fixture Fixtures.slugify_fixture w3 w4
    /\ (forall marked_parse sanitize frontMatter date_time docs,
          exists l,
            getAllPosts marked_parse sanitize frontMatter date_time
              (mkStore (w_table w4) Remote_up) docs = Ok l
            /\ map content l = [Fixtures.md_xss]).
Proof.
  do 4 eexists. split; [apply (step_select _ _ _ Fixtures.file_xss)|].
  split; [apply (step_load _ _ _ [] Fixtures.file_xss []); reflexivity|].
  split; [apply step_click; vm_compute; [discriminate|reflexivity]|].
  split; [eapply step_insert_ok; vm_compute; reflexivity|].
  intros. eexists. split; reflexivity.
Qed.

(** ** Witnesses: the theorems above at concrete inputs *)

Lemma getAllPosts_order_witness :
  (exists rows,
     getAllPosts (fun s => s) (fun s => s) (fun _ => None) Fixtures.iso_date_time
       Fixtures.store_backdated [] = Ok (map row_to_post rows)
     /\ Permutation rows (table Fixtures.store_backdated)
     /\ Sorted (key_desc (fun r => Some (row_created_at r))) rows)
  /\ Sorted (key_desc (fun p => Fixtures.iso_date_time (date p)))
       [local_post (fun s => s) (fun s => s)
          {| fm_title := ""; fm_date := "2024-01-01"; fm_slug := "untitled";
             fm_excerpt := ""; fm_featuredImage := None |} "Body text"].
Proof.
  split.
  - apply (proj1 (getAllPosts_order (fun s => s) (fun s => s) (fun _ => None)
                    Fixtures.iso_date_time) Fixtures.store_backdated []);
      [reflexivity|discriminate].
  - apply (proj2 (getAllPosts_order (fun s => s) (fun s => s) Fixtures.front_matter_untitled
                    Fixtures.iso_date_time) (mkStore [] Remote_up) Fixtures.docs_untitled).
    + reflexivity.
    + vm_compute. reflexivity.
    + constructor; [unfold key_defined; vm_compute; discriminate|constructor].
Defined.

Lemma reads_never_raise_witness :
  getAllPosts (fun s => s) (fun s => s) (fun _ => None) Fixtures.iso_date_time
    (mkStore [Fixtures.row_recent] (Remote_throws "fetch failed")) [] = Ok []
  /\ getPostBySlug (fun s => s) (fun s => s) Fixtures.front_matter_untitled
       (mkStore [Fixtures.row_recent] Remote_up) Fixtures.docs_untitled "missing" = Ok None.
Proof.
  destruct (reads_never_raise (fun s => s) (fun s => s) Fixtures.front_matter_untitled
              Fixtures.iso_date_time) as (_ & _ & _ & Hnf).
  split.
  - apply (proj1 (proj2 (reads_never_raise (fun s => s) (fun s => s) (fun _ => None)
                           Fixtures.iso_date_time))
             (mkStore [Fixtures.row_recent] (Remote_throws "fetch failed")) [] "fetch failed").
    reflexivity.
  - apply Hnf.
    + intros r [<-|[]]. vm_compute. discriminate.
    + intros path raw fm body [Hd|[]] Hfm. injection Hd as _ <-.
      vm_compute in Hfm. injection Hfm as <- _. vm_compute. discriminate.
Defined.

Lemma returned_records_origin_witness :
  (exists r, In r (table Fixtures.store_backdated) /\ row_to_post Fixtures.row_backdated = row_to_post r)
  \/ (exists path raw fm body, In (path, Some raw) ([] : LocalDocs) /\ (fun _ : string => @None (BlogFrontMatter * string)) raw = Some (fm, body)
      /\ row_to_post Fixtures.row_backdated = local_post (fun s => s) (fun s => s) fm body).
Proof.
  apply (proj1 (returned_records_origin (fun s => s) (fun s => s) (fun _ => None)
                  Fixtures.iso_date_time) Fixtures.store_backdated []
           [row_to_post Fixtures.row_backdated; row_to_post Fixtures.row_recent]).
  - vm_compute. reflexivity.
  - left. reflexivity.
Defined.

Lemma local_path_records_witness :
  exists l,
    getAllPosts (fun s => s) (fun s => s) Fixtures.front_matter_untitled Fixtures.iso_date_time
      (mkStore [] Remote_up) Fixtures.docs_untitled = Ok l
    /\ Permutation l (local_entries (fun s => s) (fun s => s) Fixtures.front_matter_untitled
                        Fixtures.docs_untitled).
Proof.
  apply (proj1 (local_path_records (fun s => s) (fun s => s) Fixtures.front_matter_untitled
                  Fixtures.iso_date_time)).
  reflexivity.
Defined.

Lemma upload_metadata_extraction_witness :
  let td := fun _ : string => join_lines ["# Hello"; ""; "World"] in
  let u := reader_onload td Fixtures.slugify_fixture (w_ui (mount Fixtures.t_mount [])) "<h1>Hello</h1><p>World</p>" in
  (m_title (u_metadata u) = trim " Hello"
   /\ m_slug (u_metadata u) = Fixtures.slugify_fixture (toLowerCase (ltrim " Hello")))
  /\ m_excerpt (u_metadata u) = slice0 200 (trim (take_while Regex.not_hash_nl "World")).
Proof.
  intros td u.
  destruct (upload_metadata_extraction td Fixtures.slugify_fixture) as (H1 & _ & H3 & _).
  split.
  - apply (H1 _ _ [] " Hello" [""; "World"]); [reflexivity|constructor|reflexivity|reflexivity].
  - apply (H3 _ _ ["# Hello"; ""] "World" []).
    + reflexivity.
    + constructor; [split; [reflexivity|right; reflexivity]|].
      constructor; [split; [reflexivity|left; reflexivity]|constructor].
    + reflexivity.
    + discriminate.
    + reflexivity.
Defined.

Lemma deploy_rejects_missing_fields_witness :
  w_inflight (click_deploy Fixtures.slugify_fixture (mount Fixtures.t_mount [])) = []
  /\ u_error (w_ui (click_deploy Fixtures.slugify_fixture (mount Fixtures.t_mount [])))
     = Some "Title and content are required".
Proof.
  destruct (deploy_rejects_missing_fields Fixtures.slugify_fixture (mount Fixtures.t_mount []))
    as (Hi & _ & _ & He & _); [left; reflexivity|].
  split; [exact Hi|exact He].
Defined.

Lemma deploy_payload_witness :
  exists p,
    handleDeploy_start Fixtures.slugify_fixture
      (reader_onload Fixtures.turndown_fixture Fixtures.slugify_fixture
         (w_ui (mount Fixtures.t_mount [])) Fixtures.html_xss) Fixtures.t_next_day
    = (set_error (set_deploying (reader_onload Fixtures.turndown_fixture Fixtures.slugify_fixture
         (w_ui (mount Fixtures.t_mount [])) Fixtures.html_xss) true) None, Some (p, p_slug p))
    /\ p_created_at p = Fixtures.t_next_day.
Proof.
  destruct (deploy_payload Fixtures.slugify_fixture
              (reader_onload Fixtures.turndown_fixture Fixtures.slugify_fixture
                 (w_ui (mount Fixtures.t_mount [])) Fixtures.html_xss) Fixtures.t_next_day)
    as (p & Hp & _ & _ & _ & _ & _ & Hc); [vm_compute; discriminate|vm_compute; discriminate|].
  exists p. split; assumption.
Defined.

Lemma file_select_updates_witness :
  snd (handleFileSelect (w_ui (mount Fixtures.t_mount [])) Fixtures.file_xss) = Some Fixtures.file_xss
  /\ clos_refl_trans_n1 _ (step Fixtures.turndown_fixture Fixtures.slugify_fixture)
       (mount Fixtures.t_mount [])
       {| w_ui := w_ui (click_deploy Fixtures.slugify_fixture Fixtures.w_loaded);
          w_now := Fixtures.t_next_day;
          w_reads := []; w_inflight := w_inflight (click_deploy Fixtures.slugify_fixture Fixtures.w_loaded);
          w_table := []; w_route := None |}
  /\ m_date (u_metadata (w_ui (click_deploy Fixtures.slugify_fixture Fixtures.w_loaded)))
     = Clock.iso_day Fixtures.t_mount
  /\ Clock.iso_day Fixtures.t_mount <> Clock.iso_day Fixtures.t_next_day.
Proof.
  destruct (file_select_updates Fixtures.turndown_fixture Fixtures.slugify_fixture) as (H1 & _ & H3).
  assert (Hc : clos_refl_trans_n1 _ (step Fixtures.turndown_fixture Fixtures.slugify_fixture)
       (mount Fixtures.t_mount [])
       {| w_ui := w_ui (click_deploy Fixtures.slugify_fixture Fixtures.w_loaded);
          w_now := Fixtures.t_next_day;
          w_reads := []; w_inflight := w_inflight (click_deploy Fixtures.slugify_fixture Fixtures.w_loaded);
          w_table := []; w_route := None |}).
  { eapply Relation_Operators.rtn1_trans;
      [apply (step_tick _ _ (click_deploy Fixtures.slugify_fixture Fixtures.w_loaded) Fixtures.t_next_day);
       apply Z.leb_le; reflexivity|].
    eapply Relation_Operators.rtn1_trans; [apply (step_click _ _ Fixtures.w_loaded); vm_compute; [discriminate|reflexivity]|].
    eapply Relation_Operators.rtn1_trans;
      [apply (step_load _ _ (select_file (mount Fixtures.t_mount []) Fixtures.file_xss) [] Fixtures.file_xss []);
       reflexivity|].
    eapply Relation_Operators.rtn1_trans; [apply (step_select _ _ _ Fixtures.file_xss)|].
    apply rtn1_refl. }
  split; [apply (H1 (w_ui (mount Fixtures.t_mount [])) Fixtures.file_xss); reflexivity|].
  split; [exact Hc|].
  split; [exact (proj1 (H3 Fixtures.t_mount [] _ Hc))|].
  vm_compute. discriminate.
Defined.

Lemma single_submission_in_flight_witness :
  exists w, reachable Fixtures.turndown_fixture Fixtures.slugify_fixture w
            /\ w_inflight w <> []
            /\ deploy_enabled (w_ui w) = false.
Proof.
  eexists. assert (Hr : reachable Fixtures.turndown_fixture Fixtures.slugify_fixture
    (click_deploy Fixtures.slugify_fixture
       {| w_ui := reader_onload Fixtures.turndown_fixture Fixtures.slugify_fixture
                    (fst (handleFileSelect (w_ui (mount Fixtures.t_mount [])) Fixtures.file_xss))
                    (f_text Fixtures.file_xss);
          w_now := Fixtures.t_mount; w_reads := []; w_inflight := []; w_table := [];
          w_route := None |})).
  { eapply reach_step; [eapply reach_step; [eapply reach_step; [apply (reach_mount _ _ Fixtures.t_mount [])
      | apply (step_select _ _ _ Fixtures.file_xss)]
      | apply (step_load _ _ _ [] Fixtures.file_xss []); reflexivity]
      | apply step_click; vm_compute; [discriminate|reflexivity]]. }
  split; [exact Hr|].
  assert (Hne : w_inflight (click_deploy Fixtures.slugify_fixture
       {| w_ui := reader_onload Fixtures.turndown_fixture Fixtures.slugify_fixture
                    (fst (handleFileSelect (w_ui (mount Fixtures.t_mount [])) Fixtures.file_xss))
                    (f_text Fixtures.file_xss);
          w_now := Fixtures.t_mount; w_reads := []; w_inflight := []; w_table := [];
          w_route := None |}) <> []) by (vm_compute; discriminate).
  split; [exact Hne|].
  exact (proj2 (single_submission_in_flight _ _ _ Hr) Hne).
Defined.

(** ** Further properties of the code *)

Section MoreFacts.

Lemma sort_insert_last {A} (cmp : A -> A -> Z) x acc :
  (forall y, In y acc -> 0 <= cmp x y) -> sort_insert cmp x acc = (acc ++ [x])%list.
Proof.
  induction acc as [|y ys IH]; intro H; simpl; [reflexivity|].
  assert (Hy : 0 <= cmp x y) by (apply H; left; reflexivity).
  destruct (cmp x y <? 0) eqn:E; [apply Z.ltb_lt in E; lia|].
  rewrite IH; [reflexivity|]. intros z Hz. apply H. right. exact Hz.
Qed.

Lemma strongly_sorted_app_cross {A} (R : A -> A -> Prop) a b :
  StronglySorted R (a ++ b)%list -> forall x y, In x a -> In y b -> R x y.
Proof.
  induction a as [|z a IH]; simpl; intros H x y Hx Hy; [destruct Hx|].
  apply StronglySorted_inv in H as [H Hz].
  destruct Hx as [<-|Hx]; [|now apply IH].
  rewrite Forall_forall in Hz. apply Hz, in_or_app. now right.
Qed.

Lemma strongly_sorted_weaken {A} (R R' : A -> A -> Prop) l :
  (forall a b, R a b -> R' a b) -> StronglySorted R l -> StronglySorted R' l.
Proof.
  intros Himp Hs. induction Hs as [|x l Hs IH Hx]; constructor; [exact IH|].
  eapply Forall_impl; [|exact Hx]. intros b. apply Himp.
Qed.

Lemma js_sort_already {A} (cmp : A -> A -> Z) l :
  StronglySorted (fun a b => 0 <= cmp b a) l -> js_sort cmp l = l.
Proof.
  unfold js_sort. intro Hs.
  assert (Hgen : forall acc, StronglySorted (fun a b => 0 <= cmp b a) (acc ++ l)%list ->
            fold_left (fun acc x => sort_insert cmp x acc) l acc = (acc ++ l)%list).
  { clear Hs. induction l as [|x l IH]; intros acc H; simpl; [now rewrite app_nil_r|].
    rewrite sort_insert_last.
    - rewrite IH; [now rewrite <- app_assoc|now rewrite <- app_assoc].
    - intros y Hy. exact (strongly_sorted_app_cross (fun a b => 0 <= cmp b a) acc (x :: l) H y x Hy (or_introl eq_refl)). }
  exact (Hgen [] Hs).
Qed.

Lemma length_slice0 n s : (String.length (slice0 n s) <= n)%nat.
Proof.
  unfold slice0. revert s; induction n as [|n IH]; intro s; simpl.
  - destruct s; simpl; lia.
  - destruct s as [|c s]; simpl; [lia|]. specialize (IH s). lia.
Qed.

Lemma filter_nodup_single {A} (f : A -> string) l r :
  NoDup (map f l) -> In r l -> filter (fun x => String.eqb (f x) (f r)) l = [r].
Proof.
  induction l as [|x l IH]; simpl; intros Hnd Hin; [destruct Hin|].
  inversion Hnd as [|? ? Hx Hnd']; subst.
  destruct Hin as [<-|Hin].
  - rewrite String.eqb_refl. rewrite filter_all_false; [reflexivity|].
    intros y Hy. apply String.eqb_neq. intro E. apply Hx. rewrite <- E. now apply in_map.
  - rewrite IH by assumption.
    destruct (String.eqb (f x) (f r)) eqn:E; [|reflexivity].
    apply String.eqb_eq in E. exfalso. apply Hx. rewrite E. now apply in_map.
Qed.

Lemma find_nodup {A} (f : A -> string) l p :
  NoDup (map f l) -> In p l -> find (fun q => String.eqb (f q) (f p)) l = Some p.
Proof.
  induction l as [|x l IH]; simpl; intros Hnd Hin; [destruct Hin|].
  inversion Hnd as [|? ? Hx Hnd']; subst.
  destruct Hin as [<-|Hin]; [now rewrite String.eqb_refl|].
  destruct (String.eqb (f x) (f p)) eqn:E; [|now apply IH].
  apply String.eqb_eq in E. exfalso. apply Hx. rewrite E. now apply in_map.
Qed.

Lemma str_length_app a b : String.length (a ++ b) = (String.length a + String.length b)%nat.
Proof. induction a as [|c a IH]; simpl; [reflexivity|now rewrite IH]. Qed.

Lemma substring_full s : substring 0 (String.length s) s = s.
Proof. induction s as [|c s IH]; simpl; [reflexivity|now rewrite IH]. Qed.

Lemma substring_app_suffix a s : substring (String.length a) (String.length s) (a ++ s) = s.
Proof. induction a as [|c a IH]; simpl; [apply substring_full|exact IH]. Qed.

Lemma ends_with_app x suffix : ends_with suffix (x ++ suffix) = true.
Proof.
  unfold ends_with. rewrite str_length_app.
  replace (String.length x + String.length suffix - String.length suffix)%nat
    with (String.length x) by lia.
  rewrite substring_app_suffix, String.eqb_refl, andb_true_r.
  apply Nat.leb_le. lia.
Qed.

Lemma toLowerCase_app a b : toLowerCase (a ++ b) = toLowerCase a ++ toLowerCase b.
Proof. induction a as [|c a IH]; simpl; [reflexivity|now rewrite IH]. Qed.


Variable turndown : string -> string.
Variable slugify : string -> string.

(** Each awaited insert navigates to its own payload's slug and carries an
    excerpt of at most 200 characters; the draft excerpt is at most 200
    characters. *)
Definition pending_inv (w : World) : Prop :=
  Forall (fun ps => snd ps = p_slug (fst ps) /\ (String.length (p_excerpt (fst ps)) <= 200)%nat)
    (w_inflight w)
  /\ (String.length (m_excerpt (u_metadata (w_ui w))) <= 200)%nat.

Lemma step_pending_inv w w' :
  pending_inv w -> step turndown slugify w w' -> pending_inv w'.
Proof.
  intros [Hf He] Hs. destruct Hs as [w t Ht|w f|w pre f post Hr|w v Hm|w v Hm|w Hm Hen
                                 |w p s rest Hq Htk|w p s rest msg Hq]; unfold pending_inv.
  - split; assumption.
  - unfold select_file, handleFileSelect. destruct (_ && _)%bool; simpl; split; assumption.
  - simpl. split; [assumption|]. destruct (Regex.excerpt_match _); [apply length_slice0|simpl; lia].
  - simpl. split; assumption.
  - simpl. split; assumption.
  - unfold click_deploy, handleDeploy_start. simpl.
    destruct (_ || _)%bool; simpl; [rewrite app_nil_r; split; assumption|].
    split; [|assumption]. apply Forall_app. split; [assumption|].
    constructor; [|constructor]. simpl. split; [reflexivity|].
    unfold str_or. destruct (m_excerpt (u_metadata (w_ui w))) eqn:E;
      [apply length_slice0|assumption].
  - rewrite Hq in Hf. inversion Hf; subst. simpl.
    unfold handleDeploy_finish, set_deploying. simpl. split; assumption.
  - rewrite Hq in Hf. inversion Hf; subst. simpl.
    unfold handleDeploy_finish, set_deploying, set_error. simpl. split; assumption.
Qed.

Lemma reachable_pending_inv w : reachable turndown slugify w -> pending_inv w.
Proof.
  induction 1 as [now tbl|w w' _ IH Hs].
  - split; [constructor|simpl; lia].
  - eapply step_pending_inv; eassumption.
Qed.

End MoreFacts.

Section ExtraFacts.

Variable turndown : string -> string.
Variable slugify : string -> string.


End ExtraFacts.

(** ** Extra properties *)

(** X1: a file that is neither of type [text/html] nor named [*.html] (in
    any letter case) is rejected: the error is shown, no read is started, and
    the previously selected file, the markdown, the metadata, the deploy flag,
    the pending inserts, the table and the route are unchanged. *)
Theorem file_select_rejects_non_html (w : World) (f : File) :
  (String.eqb (f_type f) "text/html" || ends_with ".html" (toLowerCase (f_name f)))%bool = false ->
  w_reads (select_file w f) = w_reads w
  /\ u_error (w_ui (select_file w f)) = Some "Please select a valid HTML file"
  /\ u_file (w_ui (select_file w f)) = u_file (w_ui w)
  /\ u_markdown (w_ui (select_file w f)) = u_markdown (w_ui w)
  /\ u_metadata (w_ui (select_file w f)) = u_metadata (w_ui w)
  /\ u_isDeploying (w_ui (select_file w f)) = u_isDeploying (w_ui w)
  /\ w_inflight (select_file w f) = w_inflight w
  /\ w_table (select_file w f) = w_table w
  /\ w_route (select_file w f) = w_route w.
Proof.
  intro H. apply orb_false_elim in H as [Ht Hn].
  unfold select_file, handleFileSelect. rewrite Ht, Hn. simpl.
  rewrite app_nil_r. repeat split.
Qed.

(** X2: a file whose name ends in [.html] written in any letter case is
    accepted and read, whatever MIME type the browser reports. *)
Theorem file_select_html_extension_any_case (u : Uploader) (f : File) (stem ext : string) :
  toLowerCase ext = ".html" -> f_name f = stem ++ ext ->
  snd (handleFileSelect u f) = Some f /\ u_file (fst (handleFileSelect u f)) = Some f.
Proof.
  intros He Hn. unfold handleFileSelect.
  rewrite Hn, toLowerCase_app, He, ends_with_app, andb_false_r. simpl. split; reflexivity.
Qed.


(** X4: a click on the enabled deploy button always passes the validation
    of [handleDeploy]: it clears the error, marks the upload as deploying and
    issues exactly one insert, whose navigation slug is the payload's slug;
    the table and the route are untouched until the insert settles. *)
Theorem enabled_click_issues_one_insert slugify w :
  deploy_enabled (w_ui w) = true ->
  exists p,
    w_inflight (click_deploy slugify w) = (w_inflight w ++ [(p, p_slug p)])%list
    /\ u_error (w_ui (click_deploy slugify w)) = None
    /\ u_isDeploying (w_ui (click_deploy slugify w)) = true
    /\ w_table (click_deploy slugify w) = w_table w
    /\ w_route (click_deploy slugify w) = w_route w.
Proof.
  unfold deploy_enabled. intro H. apply negb_true_iff in H.
  apply orb_false_elim in H as [H _]. apply orb_false_elim in H as [Ht Hm].
  unfold click_deploy, handleDeploy_start. rewrite Ht, Hm. simpl.
  lazymatch goal with |- exists p, (_ ++ [(?q, _)])%list = _ /\ _ => exists q end.
  repeat split.
Qed.

(** X5: when the insert fails, the store's message (or "Failed to deploy
    blog post" when the message is empty) is shown, nothing is navigated,
    the draft is kept, and the deploy button is enabled again whenever the
    title and the body are non-empty, so the user can retry. *)
Theorem insert_failure_keeps_draft u s msg :
  u_error (fst (handleDeploy_finish u s (Some msg)))
    = Some (if String.eqb msg EmptyString then "Failed to deploy blog post" else msg)
  /\ snd (handleDeploy_finish u s (Some msg)) = None
  /\ u_file (fst (handleDeploy_finish u s (Some msg))) = u_file u
  /\ u_markdown (fst (handleDeploy_finish u s (Some msg))) = u_markdown u
  /\ u_metadata (fst (handleDeploy_finish u s (Some msg))) = u_metadata u
  /\ deploy_enabled (fst (handleDeploy_finish u s (Some msg)))
     = negb (String.eqb (m_title (u_metadata u)) EmptyString || String.eqb (u_markdown u) EmptyString).
Proof.
  simpl. unfold str_or, deploy_enabled. simpl. rewrite orb_false_r.
  destruct msg; repeat split.
Qed.


(** X8: in every reachable state the excerpt in the draft, and the excerpt
    of every awaited insert, has at most 200 characters. *)
Theorem excerpt_at_most_200 turndown slugify w :
  reachable turndown slugify w ->
  (String.length (m_excerpt (u_metadata (w_ui w))) <= 200)%nat
  /\ Forall (fun ps => (String.length (p_excerpt (fst ps)) <= 200)%nat) (w_inflight w).
Proof.
  intro Hr. destruct (reachable_pending_inv _ _ _ Hr) as [Hf He].
  split; [exact He|]. eapply Forall_impl; [|exact Hf]. intros ps [_ H]. exact H.
Qed.

(** X9: when the listing query resolves with an error, [getAllPosts]
    returns exactly what it returns for an empty table: the local
    documents, sorted by date. *)
Theorem getAllPosts_error_as_empty marked_parse sanitize frontMatter date_time tbl m docs :
  getAllPosts marked_parse sanitize frontMatter date_time (mkStore tbl (Remote_error m)) docs
  = getAllPosts marked_parse sanitize frontMatter date_time (mkStore [] Remote_up) docs
  /\ getAllPosts marked_parse sanitize frontMatter date_time (mkStore tbl (Remote_error m)) docs
     = Ok (js_sort (by_date date_time) (local_entries marked_parse sanitize frontMatter docs)).
Proof.
  rewrite !getAll_local by reflexivity. split; reflexivity.
Qed.

(** X10: when exactly one remote row has the slug, [getPostBySlug] returns
    that row, whatever the local documents contain. *)
Theorem getPostBySlug_remote_match_wins marked_parse sanitize frontMatter st docs s r :
  remote st = Remote_up ->
  filter (fun x => String.eqb (row_slug x) s) (table st) = [r] ->
  getPostBySlug marked_parse sanitize frontMatter st docs s = Ok (Some (row_to_post r)).
Proof.
  intros Hu Hf. unfold getPostBySlug, select_single. rewrite Hu, Hf. reflexivity.
Qed.

(** X11: when the remote table has the slug on no row or on two or more
    rows, or the query resolves with an error, [getPostBySlug] answers from
    the local documents: the first one that loads, parses and has the slug. *)
Theorem getPostBySlug_local_when_not_single marked_parse sanitize frontMatter st docs s :
  (remote st = Remote_up /\ length (filter (fun x => String.eqb (row_slug x) s) (table st)) <> 1%nat)
  \/ (exists m, remote st = Remote_error m) ->
  getPostBySlug marked_parse sanitize frontMatter st docs s
  = Ok (find (fun p => String.eqb (slug p) s) (local_entries marked_parse sanitize frontMatter docs)).
Proof.
  intro H. apply getOne_local. unfold slug_fallback, select_single.
  destruct H as [[Hu Hl]|[m Hm]]; [rewrite Hu|rewrite Hm; reflexivity].
  destruct (filter _ (table st)) as [|x [|y l]]; [reflexivity|simpl in Hl; lia|reflexivity].
Qed.

(** X12: when the single-row query throws, [getPostBySlug] returns [null]
    without looking at the local documents, even when one has the slug. *)
Theorem getPostBySlug_throw_is_null marked_parse sanitize frontMatter st docs s m :
  remote st = Remote_throws m ->
  getPostBySlug marked_parse sanitize frontMatter st docs s = Ok None.
Proof.
  intro H. unfold getPostBySlug, select_single. rewrite H. reflexivity.
Qed.

(** X13: on the local branch the date sort keeps the document order when
    no date parses (every comparison is NaN, treated as 0), and when the
    documents are already in descending date order. *)
Theorem local_sort_keeps_order marked_parse sanitize frontMatter date_time st docs :
  local_fallback st = true ->
  (Forall (fun p => date_time (date p) = None) (local_entries marked_parse sanitize frontMatter docs)
   \/ Sorted (key_desc (fun p => date_time (date p)))
        (local_entries marked_parse sanitize frontMatter docs)) ->
  getAllPosts marked_parse sanitize frontMatter date_time st docs
  = Ok (local_entries marked_parse sanitize frontMatter docs).
Proof.
  intros Hl H. rewrite getAll_local by exact Hl. f_equal. apply js_sort_already.
  destruct H as [Hn|Hs].
  - induction Hn as [|x l Hx Hn IH]; constructor; [exact IH|].
    apply Forall_forall. intros y _. unfold by_date, cmp_desc. rewrite Hx. lia.
  - apply Sorted_StronglySorted in Hs.
    + eapply strongly_sorted_weaken; [|exact Hs].
      intros a b (ka & kb & Ha & Hb & Hle). unfold by_date, cmp_desc. rewrite Ha, Hb. lia.
    + intros a b c (ka & kb & Ha & Hb & H1) (kb' & kc & Hb' & Hc & H2).
      rewrite Hb in Hb'. injection Hb' as <-. exists ka, kc. repeat split; [exact Ha|exact Hc|lia].
Qed.

(** X14: when slugs are unique among the remote rows and among the local
    records, every post [getAllPosts] lists is returned, identical, by
    [getPostBySlug] for its slug. *)
Theorem listed_posts_fetchable_by_slug marked_parse sanitize frontMatter date_time st docs l p :
  NoDup (map row_slug (table st)) ->
  NoDup (map slug (local_entries marked_parse sanitize frontMatter docs)) ->
  getAllPosts marked_parse sanitize frontMatter date_time st docs = Ok l -> In p l ->
  getPostBySlug marked_parse sanitize frontMatter st docs (slug p) = Ok (Some p).
Proof.
  intros Hnr Hnl Hget Hin.
  destruct (local_fallback st) eqn:Hlf.
  - rewrite getAll_local in Hget by exact Hlf. injection Hget as <-.
    apply (Permutation_in _ (js_sort_perm _ _)) in Hin.
    rewrite getOne_local; [f_equal; apply (find_nodup slug); assumption|].
    unfold local_fallback, select_all_ordered in Hlf. unfold slug_fallback, select_single.
    destruct (remote st); [|reflexivity|discriminate].
    simpl in Hlf. destruct (js_sort _ (table st)) as [|x xs] eqn:Hjs; [|discriminate].
    pose proof (js_sort_perm (cmp_desc (fun r => Some (row_created_at r))) (table st)) as Hp.
    rewrite Hjs in Hp. apply Permutation_nil in Hp. rewrite Hp. reflexivity.
  - unfold local_fallback, select_all_ordered in Hlf.
    destruct (remote st) eqn:Hrem; [|discriminate|].
    + simpl in Hlf. destruct (js_sort _ (table st)) as [|x xs] eqn:Hjs; [discriminate|].
      unfold getAllPosts, select_all_ordered in Hget. rewrite Hrem, Hjs in Hget.
      simpl in Hget. injection Hget as <-.
      change (In p (map row_to_post (x :: xs))) in Hin.
      apply in_map_iff in Hin as (r & <- & Hr).
      rewrite <- Hjs in Hr.
      apply (Permutation_in _ (js_sort_perm _ _)) in Hr.
      unfold getPostBySlug, select_single. rewrite Hrem. simpl.
      rewrite (filter_nodup_single row_slug) by assumption. reflexivity.
    + unfold getAllPosts, select_all_ordered in Hget. rewrite Hrem in Hget.
      simpl in Hget. injection Hget as <-. destruct Hin.
Qed.

(** ** Witnesses of the extra properties *)

Lemma file_select_rejects_non_html_witness :
  (String.eqb (f_type Fixtures.file_txt) "text/html"
   || ends_with ".html" (toLowerCase (f_name Fixtures.file_txt)))%bool = false
  /\ w_reads (select_file (mount Fixtures.t_mount []) Fixtures.file_txt) = []
  /\ u_error (w_ui (select_file (mount Fixtures.t_mount []) Fixtures.file_txt))
     = Some "Please select a valid HTML file".
Proof.
  assert (H : (String.eqb (f_type Fixtures.file_txt) "text/html"
   || ends_with ".html" (toLowerCase (f_name Fixtures.file_txt)))%bool = false) by reflexivity.
  destruct (file_select_rejects_non_html (mount Fixtures.t_mount []) Fixtures.file_txt H)
    as (Hr & He & _).
  split; [exact H|]. split; [exact Hr|exact He].
Defined.

Lemma file_select_html_extension_any_case_witness :
  toLowerCase ".HTML" = ".html" /\ f_name Fixtures.file_upper = "PAGE" ++ ".HTML"
  /\ snd (handleFileSelect (w_ui (mount Fixtures.t_mount [])) Fixtures.file_upper)
     = Some Fixtures.file_upper.
Proof.
  split; [reflexivity|]. split; [reflexivity|].
  apply (file_select_html_extension_any_case (w_ui (mount Fixtures.t_mount []))
           Fixtures.file_upper "PAGE" ".HTML"); reflexivity.
Defined.


Lemma enabled_click_issues_one_insert_witness :
  deploy_enabled (w_ui Fixtures.w_loaded) = true
  /\ length (w_inflight (click_deploy Fixtures.slugify_fixture Fixtures.w_loaded)) = 1%nat.
Proof.
  assert (H : deploy_enabled (w_ui Fixtures.w_loaded) = true) by (vm_compute; reflexivity).
  split; [exact H|].
  destruct (enabled_click_issues_one_insert Fixtures.slugify_fixture Fixtures.w_loaded H)
    as (p & Hp & _). rewrite Hp. reflexivity.
Defined.


Lemma excerpt_at_most_200_witness :
  reachable Fixtures.turndown_long Fixtures.slugify_fixture
    (click_deploy Fixtures.slugify_fixture Fixtures.w_long_loaded)
  /\ String.length (u_markdown (w_ui Fixtures.w_long_loaded)) = 362%nat
  /\ length (w_inflight (click_deploy Fixtures.slugify_fixture Fixtures.w_long_loaded)) = 1%nat
  /\ (String.length (m_excerpt (u_metadata
        (w_ui (click_deploy Fixtures.slugify_fixture Fixtures.w_long_loaded)))) <= 200)%nat
  /\ Forall (fun ps => (String.length (p_excerpt (fst ps)) <= 200)%nat)
       (w_inflight (click_deploy Fixtures.slugify_fixture Fixtures.w_long_loaded)).
Proof.
  assert (Hr : reachable Fixtures.turndown_long Fixtures.slugify_fixture
                 (click_deploy Fixtures.slugify_fixture Fixtures.w_long_loaded)).
  { eapply reach_step; [eapply reach_step; [eapply reach_step;
        [apply (reach_mount _ _ Fixtures.t_mount [])
        | apply (step_select _ _ _ Fixtures.file_long)]
      | apply (step_load _ _ _ [] Fixtures.file_long []); reflexivity]
      | apply step_click; vm_compute; [discriminate|reflexivity]]. }
  split; [exact Hr|]. split; [vm_compute; reflexivity|]. split; [vm_compute; reflexivity|].
  exact (excerpt_at_most_200 _ _ _ Hr).
Defined.

Lemma getPostBySlug_remote_match_wins_witness :
  filter (fun x => String.eqb (row_slug x) "summer-picks") (table Fixtures.store_backdated)
    = [Fixtures.row_recent]
  /\ getPostBySlug (fun x => x) (fun x => x) Fixtures.front_matter_untitled Fixtures.store_backdated
       Fixtures.docs_untitled "summer-picks" = Ok (Some (row_to_post Fixtures.row_recent)).
Proof.
  split; [vm_compute; reflexivity|].
  apply getPostBySlug_remote_match_wins; [reflexivity|vm_compute; reflexivity].
Defined.

Lemma getPostBySlug_local_when_not_single_witness :
  length (filter (fun x => String.eqb (row_slug x) "untitled")
            [Fixtures.row_recent; Fixtures.row_backdated]) <> 1%nat
  /\ getPostBySlug (fun x => x) (fun x => x) Fixtures.front_matter_untitled
       (mkStore [Fixtures.row_recent; Fixtures.row_backdated] Remote_up)
       Fixtures.docs_untitled "untitled"
     = Ok (find (fun p => String.eqb (slug p) "untitled")
             (local_entries (fun x => x) (fun x => x) Fixtures.front_matter_untitled
                Fixtures.docs_untitled)).
Proof.
  assert (Hl : length (filter (fun x => String.eqb (row_slug x) "untitled")
            [Fixtures.row_recent; Fixtures.row_backdated]) <> 1%nat) by (vm_compute; discriminate).
  split; [exact Hl|].
  apply getPostBySlug_local_when_not_single. left. split; [reflexivity|exact Hl].
Defined.

Lemma getPostBySlug_throw_is_null_witness :
  getPostBySlug (fun x => x) (fun x => x) Fixtures.front_matter_untitled
    (mkStore [] (Remote_throws "fetch failed")) Fixtures.docs_untitled "untitled" = Ok None.
Proof.
  apply (getPostBySlug_throw_is_null _ _ _ _ _ _ "fetch failed"). reflexivity.
Defined.

Lemma local_sort_keeps_order_witness :
  getAllPosts (fun x => x) (fun x => x) Fixtures.front_matter_two Fixtures.iso_date_time
    (mkStore [] Remote_up) Fixtures.docs_newest_first
  = Ok (local_entries (fun x => x) (fun x => x) Fixtures.front_matter_two Fixtures.docs_newest_first)
  /\ getAllPosts (fun x => x) (fun x => x) Fixtures.front_matter_two (fun _ => None)
       (mkStore [] Remote_up) Fixtures.docs_oldest_first
     = Ok (local_entries (fun x => x) (fun x => x) Fixtures.front_matter_two Fixtures.docs_oldest_first)
  /\ length (local_entries (fun x => x) (fun x => x) Fixtures.front_matter_two
               Fixtures.docs_oldest_first) = 2%nat.
Proof.
  split; [|split; [|vm_compute; reflexivity]].
  - apply (local_sort_keeps_order (fun x => x) (fun x => x) Fixtures.front_matter_two
             Fixtures.iso_date_time (mkStore [] Remote_up) Fixtures.docs_newest_first);
      [reflexivity|]. right.
    let e := eval vm_compute in (local_entries (fun x => x) (fun x => x) Fixtures.front_matter_two
                                   Fixtures.docs_newest_first) in
    change (local_entries (fun x => x) (fun x => x) Fixtures.front_matter_two
              Fixtures.docs_newest_first) with e.
    apply Sorted_cons; [apply Sorted_cons; [apply Sorted_nil|apply HdRel_nil]|].
    apply HdRel_cons. exists 1717200000000, 1704067200000.
    split; [vm_compute; reflexivity|]. split; [vm_compute; reflexivity|]. lia.
  - apply (local_sort_keeps_order (fun x => x) (fun x => x) Fixtures.front_matter_two
             (fun _ => None) (mkStore [] Remote_up) Fixtures.docs_oldest_first);
      [reflexivity|]. left.
    let e := eval vm_compute in (local_entries (fun x => x) (fun x => x) Fixtures.front_matter_two
                                   Fixtures.docs_oldest_first) in
    change (local_entries (fun x => x) (fun x => x) Fixtures.front_matter_two
              Fixtures.docs_oldest_first) with e.
    constructor; [reflexivity|constructor; [reflexivity|constructor]].
Defined.

Lemma listed_posts_fetchable_by_slug_witness :
  exists l p,
    getAllPosts (fun x => x) (fun x => x) Fixtures.front_matter_untitled Fixtures.iso_date_time
      Fixtures.store_backdated Fixtures.docs_untitled = Ok l
    /\ In p l
    /\ getPostBySlug (fun x => x) (fun x => x) Fixtures.front_matter_untitled
         Fixtures.store_backdated Fixtures.docs_untitled (slug p) = Ok (Some p).
Proof.
  assert (Hnr : NoDup (map row_slug (table Fixtures.store_backdated))).
  { simpl. constructor; [simpl; intros [E|[]]; discriminate|].
    constructor; [intros []|constructor]. }
  assert (Hnl : NoDup (map slug (local_entries (fun x => x) (fun x => x)
                                   Fixtures.front_matter_untitled Fixtures.docs_untitled))).
  { vm_compute. constructor; [intros []|constructor]. }
  eexists. eexists.
  assert (Hg : getAllPosts (fun x => x) (fun x => x) Fixtures.front_matter_untitled
                 Fixtures.iso_date_time Fixtures.store_backdated Fixtures.docs_untitled
               = Ok (map row_to_post [Fixtures.row_backdated; Fixtures.row_recent]))
    by (vm_compute; reflexivity).
  split; [exact Hg|]. split; [left; reflexivity|].
  exact (listed_posts_fetchable_by_slug _ _ _ _ _ _ _ _ Hnr Hnl Hg (or_introl eq_refl)).
Defined.
